(** * Feedback analysis agent: ingestion and aggregation

    A shallow embedding of [src/index.ts] (class [FeedbackAnalysisAgent]).

    - JavaScript values coming out of [JSON.parse] are the inductive type
      [json].  A number is a finite double, given by the rational it
      denotes; arithmetic rounds every result to the nearest double
      ([fl]) and overflows to [NotFinite].  The sign of zero is not
      kept, and a JSON literal beyond the range of the doubles (read as
      [Infinity]) is outside [json].
    - The Durable Object's SQLite table [feedback] is a list of [Row]s in
      insertion order.  Column [sentiment] holds what its TEXT affinity
      makes of the bound value.  The two TEXT columns holding
      [JSON.stringify] output ([themes], [metadata]) are kept in decoded
      form: the pair stringify/parse is the identity on [json].
    - What the runtime provides and the repository does not define
      ([JSON.parse], the Workers AI model, [crypto.randomUUID], SQLite's
      [DATE], [Date.prototype.toISOString], number printing) is the
      interface [Platform].
    - Effects (the table, the AI calls, exceptions) are threaded through
      the monad [M]; a raised exception keeps the writes made so far.
    - [Array.prototype.sort] and [ORDER BY] are a stable insertion sort;
      plain objects used as maps keep their own properties in creation
      order and are enumerated as [Object.entries] does. *)

From Stdlib Require Import List String Ascii Bool Arith ZArith QArith Qround.
From Stdlib Require Import Qabs Qpower.
From Stdlib Require Import Lia Lqa Sorted Permutation DecimalString OrderedTypeEx.
Import ListNotations.

Set Warnings "-register-all".
Local Open Scope string_scope.
Local Open Scope list_scope.

(* ================================================================== *)
(** * Doubles *)
(* ================================================================== *)

Local Open Scope Q_scope.

(** [2^e]. *)
Definition pow2 (e : Z) : Q := 2 ^ e.

(** [floor (log2 |x|)] for [x] other than 0. *)
Definition Qlog2 (x : Q) : Z :=
  let a := (Z.log2 (Z.abs (Qnum x)) - Z.log2 (Zpos (Qden x)))%Z in
  if Qle_bool (pow2 a) (Qabs x) then a else (a - 1)%Z.

(** The nearest integer, halves to the even one. *)
Definition round_half_even (y : Q) : Z :=
  let f := Qfloor y in
  match Qcompare (y - inject_Z f) (1 # 2) with
  | Lt => f
  | Gt => (f + 1)%Z
  | Eq => if Z.even f then f else (f + 1)%Z
  end.

(** The exponent of the last place of the double nearest to [x]: 52
    places below the leading bit, and never below that of the
    subnormal numbers. *)
Definition double_exponent (x : Q) : Z := Z.max (Qlog2 x - 52) (-1074).

(** Rounding to the nearest double, ties to even, without regard to
    overflow. *)
Definition fl (x : Q) : Q :=
  if Qeq_bool x 0 then 0
  else let e := double_exponent x in
       Qred (inject_Z (round_half_even (x / pow2 e)) * pow2 e).

(** A JavaScript number up to the sign of zero: a finite double, or one
    of [Infinity], [-Infinity] and [NaN]. *)
Inductive number :=
| Finite (q : Q)
| NotFinite.

(** The double an exact result is rounded to; beyond the largest double
    it is an infinity. *)
Definition to_double (x : Q) : number :=
  let r := fl x in
  if Qle_bool (pow2 1024) (Qabs r) then NotFinite else Finite r.

Definition n_add (a b : number) : number :=
  match a, b with
  | Finite x, Finite y => to_double (x + y)
  | _, _ => NotFinite
  end.

Definition n_sub (a b : number) : number :=
  match a, b with
  | Finite x, Finite y => to_double (x - y)
  | _, _ => NotFinite
  end.

(** Product with, and quotient by, a finite number other than 0. *)
Definition n_mul (a : number) (c : Q) : number :=
  match a with
  | Finite x => to_double (x * c)
  | NotFinite => NotFinite
  end.

Definition n_div (a : number) (c : Q) : number :=
  match a with
  | Finite x => to_double (x / c)
  | NotFinite => NotFinite
  end.

Local Close Scope Q_scope.

(* ================================================================== *)
(** * JavaScript values *)
(* ================================================================== *)

Inductive json : Type :=
| JNull
| JBool (b : bool)
| JNum (q : Q)
| JStr (s : string)
| JArr (elems : list json)
| JObj (props : list (string * json)).

(** ToBoolean, as used by [||] and [!]. *)
Definition truthy (v : json) : bool :=
  match v with
  | JNull => false
  | JBool b => b
  | JNum q => negb (Qeq_bool q 0%Q)
  | JStr s => negb (s =? EmptyString)
  | JArr _ | JObj _ => true
  end.

Fixpoint assoc {V : Type} (k : string) (l : list (string * V)) : option V :=
  match l with
  | [] => None
  | (k', v) :: rest => if k' =? k then Some v else assoc k rest
  end.

(** Property read [v.k] on a non-null value; [None] is [undefined].  An
    object lists each of its own properties once. *)
Definition get_prop (v : json) (k : string) : option json :=
  match v with
  | JObj props => assoc k props
  | _ => None
  end.

(** [x || d] where [x] may be [undefined]. *)
Definition or_default (x : option json) (d : json) : json :=
  match x with
  | Some v => if truthy v then v else d
  | None => d
  end.

Definition dquote : string := String "034"%char EmptyString.
Definition newline : string := String "010"%char EmptyString.

(* ================================================================== *)
(** * The runtime *)
(* ================================================================== *)

Record ai_message := { role : string; content : option string }.
Record ai_request := { model : string; messages : list ai_message }.

(** Outcome of [env.AI.run]: it rejects, or resolves to an object whose
    [response] property may be absent. *)
Inductive ai_outcome :=
| AiThrows
| AiResponse (response : option string).

Class Platform := {
  (** [JSON.parse]; [None] is a SyntaxError. *)
  JSON_parse : string -> option json;
  (** Number::toString. *)
  Number_toString : Q -> string;
  (** The model's answer, given the calls made before and this call. *)
  AI_run : list ai_request -> ai_request -> ai_outcome;
  (** The n-th identifier drawn from [crypto.randomUUID]. *)
  randomUUID : nat -> string;
  (** The text SQLite makes of a REAL kept in a column of type TEXT. *)
  sql_REAL_text : Q -> string;
  (** SQLite [DATE(x)]; [None] is NULL. *)
  sql_DATE : string -> option string;
  (** SQLite [DATE('now', '-' || n || ' days')] at clock value [now]. *)
  sql_DATE_now_minus : Z -> Z -> option string;
  (** [new Date(ms).toISOString()]; [None] is a RangeError. *)
  toISOString : Z -> option string
}.

(* ================================================================== *)
(** * Data model *)
(* ================================================================== *)

(** A row of table [feedback] (see [initDatabase]). *)
Record Row := {
  r_id : string;
  r_source : string;
  r_content : string;
  r_timestamp : string;
  r_sentiment : json;
  r_score : Q;
  r_themes : list json;
  r_metadata : json
}.

(** [Omit<FeedbackItem, "id">] as it arrives in a request body: a
    required field may be missing ([None] is [undefined]), and the
    object may carry an [id] of its own, which the declared type leaves
    out but nothing checks. *)
Record RawItem := {
  i_id : option json;
  i_source : option string;
  i_content : option string;
  i_timestamp : option string;
  i_metadata : option json
}.

(** [FeedbackItem] as the code builds it.  The three input fields are
    copied by the spread [...item], so they are [undefined] ([None])
    exactly when the input lacks them; the same spread puts an [id] of
    the input in the place of the generated one. *)
Record FeedbackItem := {
  id : json;
  source : option string;
  f_content : option string;
  timestamp : option string;
  sentiment : json;
  score : Q;
  themes : list json;
  metadata : option json
}.

Inductive exn :=
| AIError
| SyntaxError
| ConstraintNotNull (column : string)
| ConstraintPrimaryKey
| RangeError
| TypeError.

Record World := {
  store : list Row;
  clock : Z;
  ai_log : list ai_request;
  uuid_next : nat
}.

Definition initDatabase : list Row := [].

(* ================================================================== *)
(** * State and exceptions *)
(* ================================================================== *)

Inductive result (A : Type) :=
| Ok (a : A)
| Throw (e : exn).
Arguments Ok {A} a.
Arguments Throw {A} e.

Definition M (A : Type) : Type := World -> result A * World.

Definition ret {A} (a : A) : M A := fun w => (Ok a, w).

Definition bind {A B} (m : M A) (k : A -> M B) : M B :=
  fun w => match m w with
           | (Ok a, w') => k a w'
           | (Throw e, w') => (Throw e, w')
           end.

Definition throw {A} (e : exn) : M A := fun w => (Throw e, w).

(** [try { body } catch (e) { handler }]: effects of [body] are kept. *)
Definition try_catch {A} (body : M A) (handler : exn -> M A) : M A :=
  fun w => match body w with
           | (Ok a, w') => (Ok a, w')
           | (Throw e, w') => handler e w'
           end.

Definition gets {A} (f : World -> A) : M A := fun w => (Ok (f w), w).

Declare Scope m_scope.
Delimit Scope m_scope with M.
Notation "x <- c1 ;; c2" := (bind c1 (fun x => c2))
  (at level 100, c1 at next level, right associativity) : m_scope.
Notation "c1 ;; c2" := (bind c1 (fun _ => c2))
  (at level 100, right associativity) : m_scope.
Local Open Scope m_scope.

Section Agent.
Context `{P : Platform}.

(* ================================================================== *)
(** * Runtime calls *)
(* ================================================================== *)

Definition AI_call (req : ai_request) : M (option string) :=
  fun w =>
    let w' := {| store := store w; clock := clock w;
                 ai_log := ai_log w ++ [req]; uuid_next := uuid_next w |} in
    match AI_run (ai_log w) req with
    | AiThrows => (Throw AIError, w')
    | AiResponse r => (Ok r, w')
    end.

Definition crypto_randomUUID : M string :=
  fun w => (Ok (randomUUID (uuid_next w)),
            {| store := store w; clock := clock w;
               ai_log := ai_log w; uuid_next := S (uuid_next w) |}).

Definition has_id (i : string) (rows : list Row) : bool :=
  existsb (fun r => r_id r =? i) rows.

(** ToString, as applied by template literals and by property keys. *)
Fixpoint js_ToString (v : json) : string :=
  match v with
  | JNull => "null"
  | JBool true => "true"
  | JBool false => "false"
  | JNum q => Number_toString q
  | JStr s => s
  | JArr l =>
      (fix join (l : list json) : string :=
         match l with
         | [] => EmptyString
         | x :: rest =>
             let e := match x with
                      | JNull => EmptyString
                      | _ => js_ToString x
                      end in
             match rest with
             | [] => e
             | _ => (e ++ "," ++ join rest)%string
             end
         end) l
  | JObj _ => "[object Object]"
  end.

(** ToString raises a TypeError on an object with an own property
    [toString]: what [JSON.parse] put there is no function, and
    [valueOf] gives the object back.  An array converts its elements. *)
Fixpoint ToString_raises (v : json) : bool :=
  match v with
  | JObj props => existsb (fun p => fst p =? "toString") props
  | JArr l => existsb ToString_raises l
  | _ => false
  end.

(** What [sql.exec] binds for a JavaScript value: [null] as NULL, a
    string as TEXT, a number as REAL, and any other value as the TEXT of
    its ToString. *)
Inductive sql_value :=
| SqlNull
| SqlText (s : string)
| SqlReal (q : Q).

Definition bound_value (v : json) : sql_value :=
  match v with
  | JNull => SqlNull
  | JStr s => SqlText s
  | JNum q => SqlReal q
  | _ => SqlText (js_ToString v)
  end.

(** What a column of type TEXT keeps of a bound value: a REAL is turned
    into its text. *)
Definition text_affinity (b : sql_value) : json :=
  match b with
  | SqlNull => JNull
  | SqlText s => JStr s
  | SqlReal q => JStr (sql_REAL_text q)
  end.

Definition stored_text (v : json) : json := text_affinity (bound_value v).

(** [INSERT INTO feedback (...) VALUES (?, ?, ?, ?, ?, ?, ?, ?)].  The
    call first converts its arguments, which raises when [sentiment]
    has no ToString; the statement then runs under the table's
    constraints: [id] PRIMARY KEY, [source], [content] and [timestamp]
    NOT NULL.  An absent field is bound as NULL; [sentiment] goes into
    a column of type TEXT, [score] into one of type REAL. *)
Definition sql_insert (i : string) (src cnt ts : option string)
    (sent : json) (sc : Q) (th : list json) (meta : json) : M unit :=
  fun w =>
    if ToString_raises sent then (Throw TypeError, w)
    else
      match src, cnt, ts with
      | None, _, _ => (Throw (ConstraintNotNull "source"), w)
      | _, None, _ => (Throw (ConstraintNotNull "content"), w)
      | _, _, None => (Throw (ConstraintNotNull "timestamp"), w)
      | Some s, Some c, Some t =>
          if has_id i (store w) then (Throw ConstraintPrimaryKey, w)
          else (Ok tt,
                {| store := store w ++
                     [{| r_id := i; r_source := s; r_content := c;
                         r_timestamp := t; r_sentiment := stored_text sent;
                         r_score := sc; r_themes := th; r_metadata := meta |}];
                   clock := clock w; ai_log := ai_log w;
                   uuid_next := uuid_next w |})
      end.

(* ================================================================== *)
(** * ingestFeedback *)
(* ================================================================== *)

Definition classifier_model : string := "@cf/meta/llama-3.1-8b-instruct".

Definition classifier_prompt : string :=
  "You analyze feedback. Return ONLY valid JSON with no other text:" ++ newline ++
  "{" ++ dquote ++ "sentiment" ++ dquote ++ ":" ++ dquote ++
  "positive|neutral|negative" ++ dquote ++ "," ++ dquote ++ "score" ++ dquote ++
  ":0-10," ++ dquote ++ "themes" ++ dquote ++ ":[" ++ dquote ++ "theme1" ++ dquote ++
  "," ++ dquote ++ "theme2" ++ dquote ++ "]}" ++ newline ++ newline ++
  "Rules:" ++ newline ++
  "- sentiment: positive (happy/praise), negative (complaints/issues), neutral (mixed/factual)"
  ++ newline ++
  "- score: 0=very negative, 5=neutral, 10=very positive" ++ newline ++
  "- themes: 1-3 short keywords describing main topics".

Definition classifier_request (cnt : option string) : ai_request :=
  {| model := classifier_model;
     messages := [ {| role := "system"; content := Some classifier_prompt |};
                   {| role := "user"; content := cnt |} ] |}.

(** [text.match(/\{[\s\S]*\}/)]: from the first opening brace to the last
    closing brace after it. *)
Fixpoint from_first_open (s : string) : option string :=
  match s with
  | EmptyString => None
  | String c s' => if Ascii.eqb c "{" then Some s' else from_first_open s'
  end.

Fixpoint upto_last_close (s : string) : option string :=
  match s with
  | EmptyString => None
  | String c s' =>
      match upto_last_close s' with
      | Some p => Some (String c p)
      | None => if Ascii.eqb c "}" then Some (String c EmptyString) else None
      end
  end.

Definition match_braces (text : string) : option string :=
  match from_first_open text with
  | None => None
  | Some rest =>
      match upto_last_close rest with
      | None => None
      | Some p => Some (String "{" p)
      end
  end.

Record Judgment := {
  j_sentiment : json;
  j_score : Q;
  j_themes : list json
}.

(** The initial values of [sentiment], [score] and [themes]. *)
Definition fallback : Judgment :=
  {| j_sentiment := JStr "neutral"; j_score := 5%Q; j_themes := [] |}.

(** [response.response || (empty string)]. *)
Definition response_text (r : option string) : string :=
  match r with
  | Some t => t
  | None => EmptyString
  end.

(** The three assignments after [JSON.parse]. *)
Definition assignments (parsed : json) : Judgment :=
  {| j_sentiment := or_default (get_prop parsed "sentiment") (JStr "neutral");
     j_score := match get_prop parsed "score" with
                | Some (JNum q) => q
                | _ => 5%Q
                end;
     j_themes := match get_prop parsed "themes" with
                 | Some (JArr l) => l
                 | _ => []
                 end |}.

(** Reading a property of [null] is a TypeError. *)
Definition read_judgment (parsed : json) : M Judgment :=
  match parsed with
  | JNull => throw TypeError
  | _ => ret (assignments parsed)
  end.

Definition JSON_parse_or_throw (s : string) : M json :=
  match JSON_parse s with
  | Some v => ret v
  | None => throw SyntaxError
  end.

(** The [try { ... } catch (e) { console.error(...) }] block of the loop
    body: every exception leaves the three variables at their initial
    values. *)
Definition classify (item : RawItem) : M Judgment :=
  try_catch
    (response <- AI_call (classifier_request (i_content item)) ;;
     match match_braces (response_text response) with
     | Some jsonMatch =>
         parsed <- JSON_parse_or_throw jsonMatch ;;
         read_judgment parsed
     | None => ret fallback
     end)
    (fun _ => ret fallback).

Definition metadata_or_empty (m : option json) : json :=
  or_default m (JObj []).

(** [{ id, ...item }]: an [id] of the input replaces the generated
    one. *)
Definition spread_id (own : option json) (i : string) : json :=
  match own with
  | Some v => v
  | None => JStr i
  end.

(** The loop body of [ingestFeedback], with [processed] as accumulator. *)
Fixpoint ingest_loop (items : list RawItem) (processed : list FeedbackItem)
  : M (list FeedbackItem) :=
  match items with
  | [] => ret processed
  | item :: rest =>
      i <- crypto_randomUUID ;;
      j <- classify item ;;
      let feedback :=
        {| id := spread_id (i_id item) i;
           source := i_source item; f_content := i_content item;
           timestamp := i_timestamp item; sentiment := j_sentiment j;
           score := j_score j; themes := j_themes j;
           metadata := i_metadata item |} in
      sql_insert i (i_source item) (i_content item) (i_timestamp item)
                 (j_sentiment j) (j_score j) (j_themes j)
                 (metadata_or_empty (i_metadata item)) ;;
      ingest_loop rest (processed ++ [feedback])
  end.

Definition ingestFeedback (items : list RawItem) : M (list FeedbackItem) :=
  ingest_loop items [].

(* ================================================================== *)
(** * Sorting, grouping and arithmetic helpers *)
(* ================================================================== *)

(** Stable insertion sort; [before y x] says that [y] must come strictly
    before [x].  It stands for [Array.prototype.sort] (stable) and for
    SQLite's [ORDER BY], whose order among equal keys is taken to be the
    scan order. *)
Fixpoint insert_by {A : Type} (before : A -> A -> bool) (x : A) (l : list A)
  : list A :=
  match l with
  | [] => [x]
  | y :: l' => if before y x then y :: insert_by before x l' else x :: l
  end.

Definition stable_sort {A : Type} (before : A -> A -> bool) (l : list A)
  : list A :=
  fold_right (insert_by before) [] l.

(** SQL values used as grouping keys: NULL or a text; NULL sorts first,
    texts in byte order. *)
Definition key_compare (a b : option string) : comparison :=
  match a, b with
  | None, None => Eq
  | None, Some _ => Lt
  | Some _, None => Gt
  | Some x, Some y => String.compare x y
  end.

Definition key_eqb (a b : option string) : bool :=
  match key_compare a b with
  | Eq => true
  | _ => false
  end.

Fixpoint insert_key (k : option string) (l : list (option string))
  : list (option string) :=
  match l with
  | [] => [k]
  | h :: t =>
      match key_compare k h with
      | Lt => k :: l
      | Eq => l
      | Gt => h :: insert_key k t
      end
  end.

Definition distinct_sorted (ks : list (option string)) : list (option string) :=
  fold_right insert_key [] ks.

(** [... GROUP BY key ORDER BY key]: the groups in ascending key order,
    each with its rows. *)
Definition sql_group_by (key : Row -> option string) (rows : list Row)
  : list (option string * list Row) :=
  map (fun k => (k, filter (fun r => key_eqb (key r) k) rows))
      (distinct_sorted (map key rows)).


Definition Qlen {A : Type} (l : list A) : Q :=
  inject_Z (Z.of_nat (List.length l)).

(** The state of SQLite's [sum()] and [avg()] over REAL values: the
    running sum and the error term of its Kahan-Babuska-Neumaier
    summation, two doubles. *)
Record SumCtx := { rSum : number; rErr : number }.

Definition kahanBabuskaNeumaierStep (p : SumCtx) (r : Q) : SumCtx :=
  let s := rSum p in
  let t := n_add s (Finite r) in
  let s_larger := match s with
                  | Finite x => negb (Qle_bool (Qabs x) (Qabs r))
                  | NotFinite => true
                  end in
  {| rSum := t;
     rErr := n_add (rErr p)
               (if s_larger then n_add (n_sub s t) (Finite r)
                else n_add (n_sub (Finite r) t) s) |}.

(** The sum of the values in row order; an error term that is not
    finite is left out. *)
Definition sql_sum (l : list Q) : number :=
  let p := fold_left kahanBabuskaNeumaierStep l
                     {| rSum := Finite 0; rErr := Finite 0 |} in
  match rErr p with
  | Finite _ => n_add (rSum p) (rErr p)
  | NotFinite => rSum p
  end.

(** SQL [AVG] over a REAL column: NULL on no rows, otherwise the sum
    divided by the number of rows (a number of rows is far below 2^53,
    hence a double). *)
Definition sql_AVG (l : list Q) : option number :=
  match l with
  | [] => None
  | _ => Some (n_div (sql_sum l) (Qlen l))
  end.

(** [Math.round]: the nearest integer, halves rounded up. *)
Definition Math_round (x : Q) : Z := Qfloor (x + (1 # 2))%Q.

(** [Math.round(x * 10) / 10]. *)
Definition round1 (x : number) : number :=
  match n_mul x 10 with
  | Finite y => to_double (inject_Z (Math_round y) / 10)
  | NotFinite => NotFinite
  end.

(** [sentiment = 'positive'] in SQL and [item.sentiment === 'positive']
    in JavaScript. *)
Definition is_sentiment (label : string) (v : json) : bool :=
  match v with
  | JStr s => s =? label
  | _ => false
  end.

Definition count_sentiment (label : string) (rows : list Row) : nat :=
  List.length (filter (fun r => is_sentiment label (r_sentiment r)) rows).

Definition opt_ToString (s : option string) : string :=
  match s with
  | Some t => t
  | None => "undefined"
  end.

(* ================================================================== *)
(** * Plain objects used as maps *)
(* ================================================================== *)

(** Own properties in creation order. *)
Definition jsobj (V : Type) : Type := list (string * V).

(** Names every object literal inherits from [Object.prototype]. *)
Definition Object_prototype_names : list string :=
  [ "constructor"; "__proto__"; "hasOwnProperty"; "isPrototypeOf";
    "propertyIsEnumerable"; "toLocaleString"; "toString"; "valueOf";
    "__defineGetter__"; "__defineSetter__"; "__lookupGetter__";
    "__lookupSetter__" ].

Definition inherited (k : string) : bool :=
  existsb (String.eqb k) Object_prototype_names.

(** [o[k] = v]: replace in place, or append a new own property. *)
Fixpoint obj_set {V : Type} (k : string) (v : V) (o : jsobj V) : jsobj V :=
  match o with
  | [] => [(k, v)]
  | (k', v') :: rest =>
      if k' =? k then (k', v) :: rest else (k', v') :: obj_set k v rest
  end.

Definition is_digit (c : ascii) : bool :=
  let n := nat_of_ascii c in (48 <=? n)%nat && (n <=? 57)%nat.

Fixpoint digits_value (s : string) (acc : N) : option N :=
  match s with
  | EmptyString => Some acc
  | String c s' =>
      if is_digit c
      then digits_value s' (acc * 10 + N.of_nat (nat_of_ascii c - 48))%N
      else None
  end.

(** A property name that is an array index: the canonical decimal form
    of an integer below 2^32 - 1. *)
Definition array_index (k : string) : option N :=
  match k with
  | EmptyString => None
  | String c rest =>
      if Ascii.eqb c "0" && negb (rest =? EmptyString) then None
      else match digits_value k 0 with
           | Some n => if (n <? 4294967295)%N then Some n else None
           | None => None
           end
  end.

Definition index_before {V : Type} (a b : string * V) : bool :=
  match array_index (fst a), array_index (fst b) with
  | Some m, Some n => (m <? n)%N
  | _, _ => false
  end.

Definition is_index_key {V : Type} (e : string * V) : bool :=
  match array_index (fst e) with
  | Some _ => true
  | None => false
  end.

(** [Object.entries(o)]: array-index names in ascending numeric order,
    then the other names in creation order. *)
Definition Object_entries {V : Type} (o : jsobj V) : list (string * V) :=
  stable_sort index_before (filter is_index_key o)
  ++ filter (fun e => negb (is_index_key e)) o.

(* ================================================================== *)
(** * getRecentFeedback *)
(* ================================================================== *)

Definition item_of_row (r : Row) : FeedbackItem :=
  {| id := JStr (r_id r); source := Some (r_source r);
     f_content := Some (r_content r); timestamp := Some (r_timestamp r);
     sentiment := r_sentiment r; score := r_score r;
     themes := r_themes r; metadata := Some (r_metadata r) |}.

(** [ORDER BY timestamp DESC]: [y] precedes [x] when it is newer. *)
Definition newer (y x : Row) : bool :=
  String.ltb (r_timestamp x) (r_timestamp y).

(** [LIMIT n]; a negative bound is no bound. *)
Definition sql_limit {A : Type} (n : Z) (l : list A) : list A :=
  if (n <? 0)%Z then l else firstn (Z.to_nat n) l.

Definition getRecentFeedback (limit : Z) : M (list FeedbackItem) :=
  rows <- gets store ;;
  ret (map item_of_row (sql_limit limit (stable_sort newer rows))).

(* ================================================================== *)
(** * getDashboardData *)
(* ================================================================== *)

Record SentimentCounts := { positive : nat; neutral : nat; negative : nat }.

(** A value of [themeCounts]: a number, or the string that [+ 1] makes
    of an inherited function. *)
Inductive count_value :=
| Count (n : nat)
| NotANumber.

Definition theme_keys (item : FeedbackItem) : list string :=
  map js_ToString (themes item).

(** [themeCounts[theme] = (themeCounts[theme] || 0) + 1].  For a name
    inherited from [Object.prototype] the read yields a function or an
    object, and the sum is a string; a string assigned to [__proto__] is
    dropped. *)
Definition themeCounts_step (o : jsobj count_value) (k : string)
  : jsobj count_value :=
  match assoc k o with
  | Some (Count n) => obj_set k (Count (n + 1)) o
  | Some NotANumber => obj_set k NotANumber o
  | None =>
      if inherited k
      then if k =? "__proto__" then o else obj_set k NotANumber o
      else obj_set k (Count 1) o
  end.

Definition themeCounts (feedback : list FeedbackItem) : jsobj count_value :=
  fold_left (fun o item => fold_left themeCounts_step (theme_keys item) o)
            feedback [].

(** [(a, b) => b[1] - a[1]] is negative: [y] goes before [x].  With a
    value that is not a number the difference is NaN, which [sort]
    reads as zero; the order JavaScript then produces is
    implementation-defined, and this model gives one admissible order. *)
Definition count_before (y x : string * count_value) : bool :=
  match snd y, snd x with
  | Count m, Count n => (n <? m)%nat
  | _, _ => false
  end.

Definition topThemes_of (feedback : list FeedbackItem)
  : list (string * count_value) :=
  firstn 10 (stable_sort count_before (Object_entries (themeCounts feedback))).

Record theme_stats := {
  ts_positive : nat;
  ts_negative : nat;
  ts_total : nat;
  ts_trend : string
}.

Definition theme_stats_init : theme_stats :=
  {| ts_positive := 0; ts_negative := 0; ts_total := 0; ts_trend := "stable" |}.

(** [total++] and the two conditional increments. *)
Definition bump (sent : json) (d : theme_stats) : theme_stats :=
  {| ts_positive := if is_sentiment "positive" sent
                    then S (ts_positive d) else ts_positive d;
     ts_negative := if is_sentiment "negative" sent
                    then S (ts_negative d) else ts_negative d;
     ts_total := S (ts_total d);
     ts_trend := ts_trend d |}.

(** One pass of the inner loop over [item.themes].  [!themeTrends[theme]]
    is false for an inherited name, and the increments then land on the
    inherited object, not on [themeTrends]. *)
Definition themeTrends_step (sent : json) (o : jsobj theme_stats) (k : string)
  : jsobj theme_stats :=
  let o1 := match assoc k o with
            | Some _ => o
            | None => if inherited k then o else obj_set k theme_stats_init o
            end in
  match assoc k o1 with
  | Some d => obj_set k (bump sent d) o1
  | None => o1
  end.

Definition themeTrends (feedback : list FeedbackItem) : jsobj theme_stats :=
  fold_left (fun o item =>
               fold_left (themeTrends_step (sentiment item)) (theme_keys item) o)
            feedback [].

Record ThemeHealth := {
  th_theme : string;
  th_total : nat;
  th_positive : nat;
  th_negative : nat;
  th_score : Z
}.

Definition Qnat (n : nat) : Q := inject_Z (Z.of_nat n).

(** [data.total > 0 ? Math.round(((data.positive - data.negative) /
    data.total) * 100) : 0].  The counters are whole numbers far below
    2^53, so they and their difference are doubles and nothing
    overflows; the quotient and the product are rounded. *)
Definition health_score (d : theme_stats) : Z :=
  if (0 <? ts_total d)%nat
  then Math_round
         (fl (fl ((Qnat (ts_positive d) - Qnat (ts_negative d))
                  / Qnat (ts_total d)) * 100))%Q
  else 0%Z.

Definition health_entry (e : string * theme_stats) : ThemeHealth :=
  {| th_theme := fst e; th_total := ts_total (snd e);
     th_positive := ts_positive (snd e); th_negative := ts_negative (snd e);
     th_score := health_score (snd e) |}.

Definition total_before (y x : ThemeHealth) : bool :=
  (th_total x <? th_total y)%nat.

Definition themeHealth_of (feedback : list FeedbackItem) : list ThemeHealth :=
  firstn 10 (stable_sort total_before
               (map health_entry (Object_entries (themeTrends feedback)))).

(** [WHERE timestamp > cutoff]; a NULL cutoff selects nothing. *)
Definition sql_window (cutoff : option string) (rows : list Row) : list Row :=
  match cutoff with
  | Some c => filter (fun r => String.ltb c (r_timestamp r)) rows
  | None => []
  end.

(** [DATE(timestamp)]. *)
Definition day_of (r : Row) : option string := sql_DATE (r_timestamp r).

(** [Number(row.avg_score)]; [Number(null)] is 0. *)
Definition Number_of (a : option number) : number :=
  match a with
  | Some x => x
  | None => Finite 0
  end.

(** [x || 0] on a number or NULL. *)
Definition or_zero (a : option number) : number :=
  match a with
  | Some (Finite q) => if Qeq_bool q 0%Q then Finite 0 else Finite q
  | Some NotFinite => NotFinite
  | None => Finite 0
  end.

Record TrendPoint := {
  tp_date : option string;
  tp_avgScore : number;
  tp_total : nat
}.

Definition trend_point (g : option string * list Row) : TrendPoint :=
  {| tp_date := fst g;
     tp_avgScore := round1 (Number_of (sql_AVG (map r_score (snd g))));
     tp_total := List.length (snd g) |}.

Record Dashboard := {
  totalFeedback : nat;
  sentimentCounts : SentimentCounts;
  averageScore : number;
  topThemes : list (string * count_value);
  sentimentTrend : list TrendPoint;
  themeHealth : list ThemeHealth;
  sourceBreakdown : list (option string * nat);
  recentFeedback : list FeedbackItem
}.

(** The grouped count query and its loop give each of the three labels
    the number of rows carrying it. *)
Definition getDashboardData : M Dashboard :=
  rows <- gets store ;;
  now <- gets clock ;;
  let counts := {| positive := count_sentiment "positive" rows;
                   neutral := count_sentiment "neutral" rows;
                   negative := count_sentiment "negative" rows |} in
  let avgScore := or_zero (sql_AVG (map r_score rows)) in
  feedback <- getRecentFeedback 100 ;;
  ret {| totalFeedback := positive counts + neutral counts + negative counts;
         sentimentCounts := counts;
         averageScore := round1 avgScore;
         topThemes := topThemes_of feedback;
         sentimentTrend :=
           map trend_point
               (sql_group_by day_of (sql_window (sql_DATE_now_minus now 30) rows));
         themeHealth := themeHealth_of feedback;
         sourceBreakdown :=
           map (fun g => (fst g, List.length (snd g)))
               (sql_group_by (fun r => Some (r_source r)) rows);
         recentFeedback := firstn 10 feedback |}.

(* ================================================================== *)
(** * askAboutFeedback and generateSummary *)
(* ================================================================== *)

(** [`[${f.sentiment}, score:${f.score}] (${f.source}): ${f.content}`]. *)
Definition context_line (f : FeedbackItem) : string :=
  "[" ++ js_ToString (sentiment f) ++ ", score:" ++ Number_toString (score f)
  ++ "] (" ++ opt_ToString (source f) ++ "): " ++ opt_ToString (f_content f).

Definition context_of (l : list FeedbackItem) : string :=
  String.concat newline (map context_line l).

(** [response.response || d]. *)
Definition response_or (r : option string) (d : string) : string :=
  match r with
  | Some t => if t =? EmptyString then d else t
  | None => d
  end.

Definition ask_prompt : string :=
  "You are a feedback analysis assistant. Answer questions based on the feedback data. Be specific, cite examples, and provide actionable insights.".

Definition askAboutFeedback (question : string) : M string :=
  feedback <- getRecentFeedback 30 ;;
  let context := context_of feedback in
  response <- AI_call
    {| model := classifier_model;
       messages :=
         [ {| role := "system"; content := Some ask_prompt |};
           {| role := "user";
              content := Some ("Feedback data:" ++ newline ++ context ++ newline
                               ++ newline ++ "Question: " ++ question)%string
           |} ] |} ;;
  ret (response_or response "Unable to generate response").

Definition summary_prompt : string :=
  "Generate an executive summary of user feedback. Include:" ++ newline ++
  "1. Overall sentiment (what % positive/negative)" ++ newline ++
  "2. Key themes and patterns" ++ newline ++
  "3. Notable praise (what users love)" ++ newline ++
  "4. Areas for improvement (common complaints)" ++ newline ++
  "5. Top 3 recommended action items" ++ newline ++ newline ++
  "Be concise but specific.".

Definition Date_toISOString (ms : Z) : M string :=
  match toISOString ms with
  | Some s => ret s
  | None => throw RangeError
  end.

(** [f.timestamp >= cutoff] on strings. *)
Definition not_before (cutoff : string) (f : FeedbackItem) : bool :=
  match timestamp f with
  | Some t => String.leb cutoff t
  | None => false
  end.

Definition no_feedback_message (days : Z) : string :=
  "No feedback received in the last " ++ Number_toString (inject_Z days)
  ++ " days.".

Definition summary_request (days : Z) (filtered : list FeedbackItem)
  : ai_request :=
  {| model := classifier_model;
     messages :=
       [ {| role := "system"; content := Some summary_prompt |};
         {| role := "user";
            content :=
              Some ("Summarize " ++ Number_toString (Qlen filtered)
                    ++ " feedback items from the last "
                    ++ Number_toString (inject_Z days) ++ " days:"
                    ++ newline ++ newline ++ context_of filtered)%string
         |} ] |}.

Definition generateSummary (days : Z) : M string :=
  feedback <- getRecentFeedback 100 ;;
  now <- gets clock ;;
  cutoff <- Date_toISOString (now - days * 24 * 60 * 60 * 1000)%Z ;;
  let filtered := filter (not_before cutoff) feedback in
  if (List.length filtered =? 0)%nat
  then ret (no_feedback_message days)
  else
    response <- AI_call (summary_request days filtered) ;;
    ret (response_or response "Unable to generate summary").

(* ================================================================== *)
(** * getTrends *)
(* ================================================================== *)

Record TrendEntry := {
  t_date : option string;
  t_total : nat;
  t_positive : nat;
  t_negative : nat;
  t_avgScore : number
}.

Definition trend_entry (g : option string * list Row) : TrendEntry :=
  {| t_date := fst g;
     t_total := List.length (snd g);
     t_positive := count_sentiment "positive" (snd g);
     t_negative := count_sentiment "negative" (snd g);
     t_avgScore := round1 (Number_of (sql_AVG (map r_score (snd g)))) |}.

Definition getTrends (days : Z) : M (list TrendEntry) :=
  rows <- gets store ;;
  now <- gets clock ;;
  ret (map trend_entry
           (sql_group_by day_of (sql_window (sql_DATE_now_minus now days) rows))).

(* ================================================================== *)
(** * fetch *)
(* ================================================================== *)

(** A request after the [OPTIONS] pre-flight and the routing on path and
    method; query parameters are already integers.  A body of [/ingest]
    that is not JSON or has no iterable [feedback] is [None]. *)
Inductive Request :=
| POST_ingest (feedback : option (list RawItem))
| GET_dashboard
| GET_feedback (limit : Z)
| POST_ask (question : string)
| GET_summary (days : Z)
| GET_trends (days : Z)
| OtherRequest.

(** The JSON bodies [fetch] answers with; [ServerError] is the status
    500 answer built in the [catch] clause. *)
Inductive Response :=
| IngestJson (processed : nat)
| DashboardJson (d : Dashboard)
| FeedbackJson (l : list FeedbackItem)
| AnswerJson (answer : string)
| SummaryJson (summary : string)
| TrendsJson (trends : list TrendEntry)
| NotFound
| ServerError (e : exn).

Definition fetch (request : Request) : M Response :=
  try_catch
    (match request with
     | POST_ingest None => throw TypeError
     | POST_ingest (Some feedback) =>
         results <- ingestFeedback feedback ;;
         ret (IngestJson (List.length results))
     | GET_dashboard =>
         data <- getDashboardData ;; ret (DashboardJson data)
     | GET_feedback limit =>
         feedback <- getRecentFeedback limit ;; ret (FeedbackJson feedback)
     | POST_ask question =>
         answer <- askAboutFeedback question ;; ret (AnswerJson answer)
     | GET_summary days =>
         summary <- generateSummary days ;; ret (SummaryJson summary)
     | GET_trends days =>
         trends <- getTrends days ;; ret (TrendsJson trends)
     | OtherRequest => ret NotFound
     end)
    (fun e => ret (ServerError e)).

(* ================================================================== *)
(** * Vocabulary of the properties *)
(* ================================================================== *)

(** What [sentiment], [score] and [themes] hold after the [try] block,
    as a function of the outcome of the AI call (see [classify_run]). *)
Definition judge (o : ai_outcome) : Judgment :=
  match o with
  | AiThrows => fallback
  | AiResponse r =>
      match match_braces (response_text r) with
      | None => fallback
      | Some m =>
          match JSON_parse m with
          | None | Some JNull => fallback
          | Some parsed => assignments parsed
          end
      end
  end.

(** The classification failures of the specification. *)
Inductive classification_fails : ai_outcome -> Prop :=
| call_fails : classification_fails AiThrows
| no_json_found r :
    match_braces (response_text r) = None ->
    classification_fails (AiResponse r)
| parse_fails r m :
    match_braces (response_text r) = Some m ->
    JSON_parse m = None ->
    classification_fails (AiResponse r).

Definition well_formed (item : RawItem) : Prop :=
  exists s c t,
    i_source item = Some s /\ i_content item = Some c /\
    i_timestamp item = Some t.

(** The next [n] identifiers are new to the table and to one another. *)
Definition fresh_ids (w : World) (n : nat) : Prop :=
  NoDup (map r_id (store w) ++ map randomUUID (seq (uuid_next w) n)).

(** [f] is input [item] with a classification attached. *)
Definition classified_from (item : RawItem) (f : FeedbackItem) : Prop :=
  source f = i_source item /\ f_content f = i_content item /\
  timestamp f = i_timestamp item /\ metadata f = i_metadata item /\
  exists o, sentiment f = j_sentiment (judge o) /\
            score f = j_score (judge o) /\ themes f = j_themes (judge o).

(** Row [r] is what [INSERT] writes for item [f]: the sentiment as the
    column of type TEXT keeps it, the other fields as they are. *)
Definition stored_as (f : FeedbackItem) (r : Row) : Prop :=
  source f = Some (r_source r) /\
  f_content f = Some (r_content r) /\ timestamp f = Some (r_timestamp r) /\
  r_sentiment r = stored_text (sentiment f) /\ r_score r = score f /\
  r_themes r = themes f /\ r_metadata r = metadata_or_empty (metadata f).

(** The judgment an item carries. *)
Definition judgment_of (f : FeedbackItem) : Judgment :=
  {| j_sentiment := sentiment f; j_score := score f; j_themes := themes f |}.

(** The judgments of a batch, each from the answer to the item's own
    AI call, made after the calls of the items before it. *)
Fixpoint judgments_of (log : list ai_request) (items : list RawItem)
  : list Judgment :=
  match items with
  | [] => []
  | item :: rest =>
      let req := classifier_request (i_content item) in
      judge (AI_run log req) :: judgments_of (log ++ [req]) rest
  end.

(** Every sentiment the batch is classified with has a ToString, so
    that [INSERT] can bind it. *)
Definition sentiments_convert (w : World) (items : list RawItem) : Prop :=
  Forall (fun j => ToString_raises (j_sentiment j) = false)
         (judgments_of (ai_log w) items).

(** The next [n] identifiers drawn. *)
Definition drawn_ids (w : World) (n : nat) : list string :=
  map randomUUID (seq (uuid_next w) n).

(** The identifiers of the returned items: the input's own where it has
    one, the drawn one otherwise. *)
Definition returned_ids (w : World) (items : list RawItem) : list json :=
  map (fun p => spread_id (i_id (fst p)) (snd p))
      (combine items (drawn_ids w (List.length items))).

Definition sentiment_labels : list json :=
  [JStr "positive"; JStr "neutral"; JStr "negative"].




Definition key_lt (a b : option string) : Prop := key_compare a b = Lt.

(** Labels in first-seen order, each once. *)
Definition first_seen (l : list string) : list string :=
  fold_left (fun acc k => if existsb (String.eqb k) acc then acc else acc ++ [k])
            l [].



(** The world after one more AI call. *)
Definition log_call (req : ai_request) (w : World) : World :=
  {| store := store w; clock := clock w;
     ai_log := ai_log w ++ [req]; uuid_next := uuid_next w |}.

(** The classification calls a batch gives rise to, one per item. *)
Definition requests_of (items : list RawItem) : list ai_request :=
  map (fun item => classifier_request (i_content item)) items.

(** The rows [getTrends] aggregates: those after the cut-off date. *)
Definition window_of (w : World) (days : Z) : list Row :=
  sql_window (sql_DATE_now_minus (clock w) days) (store w).

(** The rows of a window that fall on day [d]. *)
Definition day_rows (win : list Row) (d : option string) : list Row :=
  filter (fun r => key_eqb (day_of r) d) win.

(** Rows whose sentiment is neither positive nor negative. *)
Definition other_sentiment (r : Row) : bool :=
  negb (is_sentiment "positive" (r_sentiment r))
  && negb (is_sentiment "negative" (r_sentiment r)).


(** [ORDER BY timestamp DESC LIMIT n]. *)
Definition most_recent (n : nat) (rows : list Row) : list Row :=
  firstn n (stable_sort newer rows).

(** The line [[sentiment, score:S] (source): content] of a stored row. *)
Definition row_line (r : Row) : string :=
  "[" ++ js_ToString (r_sentiment r) ++ ", score:" ++ Number_toString (r_score r)
  ++ "] (" ++ r_source r ++ "): " ++ r_content r.

End Agent.

Section ThemeVocabulary.
Context `{P : Platform}.


(** Every theme occurrence in the rows, in iteration order, with the
    sentiment of the row it comes from. *)
Definition mentions (rows : list Row) : list (string * json) :=
  flat_map (fun r => map (fun t => (js_ToString t, r_sentiment r)) (r_themes r))
           rows.


Definition mentions_of (k : string) (ms : list (string * json))
  : list (string * json) :=
  filter (fun m => fst m =? k) ms.

Definition plain_mention (m : string * json) : bool := negb (inherited (fst m)).

End ThemeVocabulary.

(** Folding events into a plain object: an event either updates the
    value of its key or creates the key from [init]. *)
Section Accumulate.
Context {I V : Type} (upd : I -> V -> V) (init : V).

Definition acc_step (o : jsobj V) (e : string * I) : jsobj V :=
  match assoc (fst e) o with
  | Some v => obj_set (fst e) (upd (snd e) v) o
  | None => obj_set (fst e) (upd (snd e) init) o
  end.

(** The value key [k] ends with. *)
Definition tally (k : string) (events : list (string * I)) : V :=
  fold_left (fun v e => if fst e =? k then upd (snd e) v else v) events init.

Definition counted (events : list (string * I)) : jsobj V :=
  map (fun k => (k, tally k events)) (first_seen (map fst events)).

End Accumulate.




Section RankingVocabulary.
Context `{P : Platform}.




Definition total_ge (a b : ThemeHealth) : Prop :=
  (th_total b <= th_total a)%nat.

Definition positive_mention (m : string * json) : bool :=
  is_sentiment "positive" (snd m).

Definition negative_mention (m : string * json) : bool :=
  is_sentiment "negative" (snd m).

(** [themeTrends_step] on a mention. *)
Definition trend_step (o : jsobj theme_stats) (m : string * json)
  : jsobj theme_stats :=
  themeTrends_step (snd m) o (fst m).

End RankingVocabulary.

(** The number an array-index name denotes (0 for other names). *)
Definition index_value {V : Type} (e : string * V) : N :=
  match array_index (fst e) with
  | Some n => n
  | None => 0%N
  end.

(* ================================================================== *)
(** * A concrete runtime for the examples *)
(* ================================================================== *)

Module Demo.

Definition N_toString (n : N) : string :=
  NilZero.string_of_uint (N.to_uint n).

Definition pad (width : nat) (n : N) : string :=
  let d := N_toString n in
  (String.concat EmptyString (repeat "0" (width - String.length d)) ++ d)%string.

(** Decimal digits of [r / d] after the point, at most [fuel] of them. *)
Fixpoint fraction_digits (fuel : nat) (r d : N) : string :=
  match fuel with
  | O => EmptyString
  | S fuel' =>
      if (r =? 0)%N then EmptyString
      else (N_toString (r * 10 / d) ++ fraction_digits fuel' (r * 10 mod d) d)%string
  end.

(** Number::toString on integers and on short decimal fractions. *)
Definition number_text (q : Q) : string :=
  let n := Z.abs_N (Qnum q) in
  let d := Npos (Qden q) in
  let frac := fraction_digits 16 (n mod d) d in
  ((if (Qnum q <? 0)%Z then "-" else EmptyString)
   ++ N_toString (n / d)
   ++ (if frac =? EmptyString then EmptyString else "." ++ frac))%string.

(** The text of a REAL in a column of type TEXT, on whole numbers and
    on short decimal fractions: at least one digit after the point. *)
Definition real_text (q : Q) : string :=
  let t := number_text q in
  match String.index 0 "." t with
  | Some _ => t
  | None => (t ++ ".0")%string
  end.

(** Days since 1970-01-01 to (year, month, day), proleptic Gregorian. *)
Definition civil_from_days (days : Z) : Z * Z * Z :=
  let z := (days + 719468)%Z in
  let era := (z / 146097)%Z in
  let doe := (z - era * 146097)%Z in
  let yoe := ((doe - doe / 1460 + doe / 36524 - doe / 146096) / 365)%Z in
  let doy := (doe - (365 * yoe + yoe / 4 - yoe / 100))%Z in
  let mp := ((5 * doy + 2) / 153)%Z in
  let d := (doy - (153 * mp + 2) / 5 + 1)%Z in
  let m := (if mp <? 10 then mp + 3 else mp - 9)%Z in
  ((if m <=? 2 then yoe + era * 400 + 1 else yoe + era * 400)%Z, m, d).

Definition date_text (ymd : Z * Z * Z) : string :=
  let '(y, m, d) := ymd in
  (pad 4 (Z.to_N y) ++ "-" ++ pad 2 (Z.to_N m) ++ "-" ++ pad 2 (Z.to_N d))%string.

Definition ms_per_day : Z := 86400000.

(** The year of an ISO text: four digits, or a sign and six digits
    outside 0000 to 9999. *)
Definition year_text (y : Z) : string :=
  if ((0 <=? y) && (y <=? 9999))%Z then pad 4 (Z.to_N y)
  else ((if (y <? 0)%Z then "-" else "+") ++ pad 6 (Z.abs_N y))%string.

(** [toISOString] of the instant [ms] milliseconds after the epoch; an
    instant more than 100 million days away from it is no valid date. *)
Definition iso_text (ms : Z) : option string :=
  let '(y, m, d) := civil_from_days (ms / ms_per_day) in
  let t := (ms mod ms_per_day)%Z in
  if (Z.abs ms <=? 8640000000000000)%Z
  then Some (year_text y ++ "-" ++ pad 2 (Z.to_N m) ++ "-"
             ++ pad 2 (Z.to_N d) ++ "T"
             ++ pad 2 (Z.to_N (t / 3600000)) ++ ":"
             ++ pad 2 (Z.to_N (t / 60000 mod 60)) ++ ":"
             ++ pad 2 (Z.to_N (t / 1000 mod 60)) ++ "."
             ++ pad 3 (Z.to_N (t mod 1000)) ++ "Z")%string
  else None.

(** [DATE('now', '-n days')]: the UTC date [n] days before the clock. *)
Definition date_days_ago (now n : Z) : option string :=
  let '(y, m, d) := civil_from_days (now / ms_per_day - n) in
  if ((0 <=? y) && (y <=? 9999))%Z then Some (date_text (y, m, d)) else None.

Fixpoint shape (s : string) : string :=
  match s with
  | EmptyString => EmptyString
  | String c s' => String (if is_digit c then "9"%char else c) (shape s')
  end.

(** [DATE(x)] on UTC time strings in the layouts ingestion clients send,
    and on one time with an offset, which is first moved to UTC; NULL on
    anything else. *)
Definition date_of_text (x : string) : option string :=
  if x =? "2026-01-30T23:30:00-05:00" then Some "2026-01-31"
  else if existsb (String.eqb (shape x))
       [ "9999-99-99"; "9999-99-99T99:99"; "9999-99-99T99:99:99";
         "9999-99-99T99:99:99Z"; "9999-99-99T99:99:99.999";
         "9999-99-99T99:99:99.999Z"; "9999-99-99 99:99:99" ]
  then Some (substring 0 10 x)
  else None.

Definition uuid (n : nat) : string :=
  ("00000000-0000-4000-8000-" ++ pad 12 (N.of_nat n))%string.

Definition q (s : string) : string := (dquote ++ s ++ dquote)%string.

Definition doc_positive : string :=
  ("{" ++ q "sentiment" ++ ":" ++ q "positive" ++ "," ++ q "score" ++ ":9,"
   ++ q "themes" ++ ":[" ++ q "support" ++ "]}")%string.

Definition doc_mixed : string :=
  ("{" ++ q "sentiment" ++ ":" ++ q "mixed" ++ "," ++ q "score" ++ ":6,"
   ++ q "themes" ++ ":[" ++ q "usability" ++ "]}")%string.

Definition doc_login : string :=
  ("{" ++ q "sentiment" ++ ":" ++ q "negative" ++ "," ++ q "score" ++ ":2,"
   ++ q "themes" ++ ":[" ++ q "login" ++ "," ++ q "404" ++ "]}")%string.

Definition doc_constructor : string :=
  ("{" ++ q "sentiment" ++ ":" ++ q "negative" ++ "," ++ q "score" ++ ":3,"
   ++ q "themes" ++ ":[" ++ q "constructor" ++ "]}")%string.

Definition doc_precise : string :=
  ("{" ++ q "sentiment" ++ ":" ++ q "positive" ++ "," ++ q "score" ++ ":8.35,"
   ++ q "themes" ++ ":[" ++ q "pricing" ++ "]}")%string.

Definition doc_numeric : string :=
  ("{" ++ q "sentiment" ++ ":7," ++ q "score" ++ ":7,"
   ++ q "themes" ++ ":[]}")%string.

Definition doc_object : string :=
  ("{" ++ q "sentiment" ++ ":{" ++ q "toString" ++ ":" ++ q "positive" ++ "},"
   ++ q "score" ++ ":8," ++ q "themes" ++ ":[" ++ q "praise" ++ "]}")%string.

Definition doc_partial : string :=
  ("{" ++ q "score" ++ ":" ++ q "high" ++ "," ++ q "themes" ++ ":"
   ++ q "billing" ++ "}")%string.

Definition doc_truncated : string :=
  ("{" ++ q "sentiment" ++ ":" ++ q "positive" ++ ", {" ++ q "score" ++ "}")%string.

(** [JSON.parse] on the documents above; everything else the examples
    feed it is not JSON. *)
Definition parse (s : string) : option json :=
  if s =? doc_positive then
    Some (JObj [("sentiment", JStr "positive"); ("score", JNum 9);
                ("themes", JArr [JStr "support"])])
  else if s =? doc_mixed then
    Some (JObj [("sentiment", JStr "mixed"); ("score", JNum 6);
                ("themes", JArr [JStr "usability"])])
  else if s =? doc_login then
    Some (JObj [("sentiment", JStr "negative"); ("score", JNum 2);
                ("themes", JArr [JStr "login"; JStr "404"])])
  else if s =? doc_constructor then
    Some (JObj [("sentiment", JStr "negative"); ("score", JNum 3);
                ("themes", JArr [JStr "constructor"])])
  else if s =? doc_precise then
    Some (JObj [("sentiment", JStr "positive"); ("score", JNum (fl (167 # 20)));
                ("themes", JArr [JStr "pricing"])])
  else if s =? doc_numeric then
    Some (JObj [("sentiment", JNum 7); ("score", JNum 7); ("themes", JArr [])])
  else if s =? doc_object then
    Some (JObj [("sentiment", JObj [("toString", JStr "positive")]);
                ("score", JNum 8); ("themes", JArr [JStr "praise"])])
  else if s =? doc_partial then
    Some (JObj [("score", JStr "high"); ("themes", JStr "billing")])
  else None.

Definition user_content (req : ai_request) : option string :=
  match messages req with
  | [_; m] => content m
  | _ => None
  end.

Definition is_classification (req : ai_request) : bool :=
  match messages req with
  | m :: _ => match content m with
              | Some c => c =? classifier_prompt
              | None => false
              end
  | [] => false
  end.

(** A model that answers a handful of feedback texts, is unavailable for
    one of them, and writes a fixed report when asked to summarise. *)
Definition model_answer (_ : list ai_request) (req : ai_request) : ai_outcome :=
  if is_classification req then
    match user_content req with
    | Some c =>
        if c =? "Love this app!" then AiThrows
        else if c =? "Great support team" then AiResponse (Some doc_positive)
        else if c =? "It is okay, I guess" then
          AiResponse (Some ("Here is the analysis: " ++ doc_mixed ++ " Done.")%string)
        else if c =? "Page not found after login" then
          AiResponse (Some doc_login)
        else if c =? "The constructor overloads are confusing" then
          AiResponse (Some doc_constructor)
        else if c =? "Pricing is fair" then AiResponse (Some doc_precise)
        else if c =? "Seven out of ten" then AiResponse (Some doc_numeric)
        else if c =? "Works as described" then AiResponse (Some doc_object)
        else if c =? "Billing was fine" then AiResponse (Some doc_partial)
        else if c =? "Could be faster" then AiResponse (Some doc_truncated)
        else if c =? "No comment" then AiResponse (Some "I cannot classify this.")
        else AiResponse None
    | None => AiThrows
    end
  else AiResponse (Some "Executive summary: sentiment is mostly positive.").

#[export] Instance platform : Platform :=
  {| JSON_parse := parse;
     Number_toString := number_text;
     AI_run := model_answer;
     randomUUID := uuid;
     sql_REAL_text := real_text;
     sql_DATE := date_of_text;
     sql_DATE_now_minus := date_days_ago;
     toISOString := iso_text |}.

(** 2026-02-01T12:00:00.000Z. *)
Definition noon : Z := 1769947200000.

Definition empty_world : World :=
  {| store := initDatabase; clock := noon; ai_log := []; uuid_next := 0 |}.

Definition raw (src cnt ts : string) : RawItem :=
  {| i_id := None; i_source := Some src; i_content := Some cnt;
     i_timestamp := Some ts; i_metadata := None |}.


(** Three feedback items on three days; the model is unavailable for
    the last one. *)
Definition sample_batch : list RawItem :=
  [ raw "email" "Great support team" "2026-01-30T10:15:00Z";
    raw "web" "Page not found after login" "2026-01-31T08:00:00Z";
    raw "app_store" "Love this app!" "2026-01-29T09:00:00Z" ].

Definition sample_world : World :=
  snd (ingestFeedback (P := platform) sample_batch empty_world).

(** A batch one of whose items the model tags with the theme
    "constructor". *)
Definition constructor_batch : list RawItem :=
  [ raw "email" "Great support team" "2026-01-30T10:15:00Z";
    raw "github" "The constructor overloads are confusing"
        "2026-01-31T12:00:00Z" ].

Definition constructor_world : World :=
  snd (ingestFeedback (P := platform) constructor_batch empty_world).



End Demo.

(* ================================================================== *)
(** * Further vocabulary: the table over time, reading back, routing *)
(* ================================================================== *)

Section StoreVocabulary.
Context `{P : Platform}.

(** [m] relates the world it starts in to the world it ends in by [R],
    whether it returns or raises. *)
Definition respects {A : Type} (R : World -> World -> Prop) (m : M A) : Prop :=
  forall w, R w (snd (m w)).

(** The table is the same. *)
Definition same_store (w w' : World) : Prop := store w' = store w.

(** The table only grew, by rows whose sentiment is a text and without
    breaking the uniqueness of identifiers. *)
Definition grown_store (w w' : World) : Prop :=
  exists rows,
    store w' = store w ++ rows /\
    Forall (fun r => exists s, r_sentiment r = JStr s) rows /\
    (NoDup (map r_id (store w)) -> NoDup (map r_id (store w'))).

(** Worlds reachable from a fresh database by requests and by the
    passing of time. *)
Inductive reachable : World -> Prop :=
| reachable_fresh now :
    reachable {| store := initDatabase; clock := now; ai_log := [];
                 uuid_next := 0 |}
| reachable_fetch w request :
    reachable w -> reachable (snd (fetch request w))
| reachable_tick w now :
    reachable w ->
    reachable {| store := store w; clock := now; ai_log := ai_log w;
                 uuid_next := uuid_next w |}.

Definition is_ingest (request : Request) : bool :=
  match request with
  | POST_ingest (Some _) => true
  | _ => false
  end.



(** The request [askAboutFeedback] sends for the given rows. *)
Definition ask_request (question : string) (rows : list Row) : ai_request :=
  {| model := classifier_model;
     messages :=
       [ {| role := "system"; content := Some ask_prompt |};
         {| role := "user";
            content :=
              Some ("Feedback data:" ++ newline
                    ++ String.concat newline (map row_line rows)
                    ++ newline ++ newline ++ "Question: " ++ question)%string
         |} ] |}.



End StoreVocabulary.

Fixpoint occurs (c : ascii) (s : string) : bool :=
  match s with
  | EmptyString => false
  | String c' s' => Ascii.eqb c' c || occurs c s'
  end.

(* ================================================================== *)
(** * The worker in front of the agent *)
(* ================================================================== *)

Fixpoint string_drop (n : nat) (s : string) : string :=
  match n, s with
  | O, _ => s
  | S n', String _ s' => string_drop n' s'
  | S _, EmptyString => EmptyString
  end.

(** [s.replace(pat, rep)] with a string pattern: the first occurrence of
    [pat] is replaced. *)
Fixpoint js_replace (pat rep s : string) : string :=
  if String.prefix pat s then (rep ++ string_drop (String.length pat) s)%string
  else match s with
       | EmptyString => s
       | String c s' => String c (js_replace pat rep s')
       end.

(** What the default export's [fetch] does with a request, by its
    [url.pathname]: serve the dashboard page, hand the request to the
    agent after assigning a new [pathname], or answer 404. *)
Inductive WorkerRoute :=
| ServeDashboardHTML
| ForwardToAgent (new_pathname : string)
| WorkerNotFound.

Definition worker_route (pathname : string) : WorkerRoute :=
  if (pathname =? "/") || (pathname =? "/dashboard") then ServeDashboardHTML
  else if String.prefix "/api" pathname
       then ForwardToAgent (js_replace "/api" EmptyString pathname)
       else WorkerNotFound.

(** The runtime of [Demo] during an outage of the model. *)
Module Outage.

Definition platform : Platform :=
  {| JSON_parse := Demo.parse;
     Number_toString := Demo.number_text;
     AI_run := fun _ _ => AiThrows;
     randomUUID := Demo.uuid;
     sql_REAL_text := Demo.real_text;
     sql_DATE := Demo.date_of_text;
     sql_DATE_now_minus := Demo.date_days_ago;
     toISOString := Demo.iso_text |}.

End Outage.

(* ================================================================== *)
(** * Ingestion *)
(* ================================================================== *)

Section IngestionProofs.
Context `{P : Platform}.

Lemma truthy_or_default (x : option json) (d : json) :
  truthy d = true -> truthy (or_default x d) = true.
Proof.
  intros Hd. unfold or_default.
  destruct x as [v|]; [destruct (truthy v) eqn:E|]; auto.
Qed.

Lemma judge_sentiment_truthy (o : ai_outcome) :
  truthy (j_sentiment (judge o)) = true.
Proof.
  unfold judge.
  destruct o as [|r]; [reflexivity|].
  destruct (match_braces (response_text r)) as [m|]; [|reflexivity].
  destruct (JSON_parse m) as [[]|]; try reflexivity;
    cbn [assignments j_sentiment]; now apply truthy_or_default.
Qed.

Lemma truthy_not_null (v : json) : truthy v = true -> v <> JNull.
Proof. intros H ->. discriminate H. Qed.

(** The [try]/[catch] block always completes, with the judgment [judge]
    computes from the outcome of its single AI call. *)
Lemma classify_run (item : RawItem) (w : World) :
  classify item w =
  (Ok (judge (AI_run (ai_log w) (classifier_request (i_content item)))),
   log_call (classifier_request (i_content item)) w).
Proof.
  unfold classify, try_catch, bind, AI_call, judge, log_call.
  destruct (AI_run (ai_log w) (classifier_request (i_content item))) as [|r];
    [reflexivity|].
  destruct (match_braces (response_text r)) as [m|]; [|reflexivity].
  unfold JSON_parse_or_throw.
  destruct (JSON_parse m) as [[]|]; reflexivity.
Qed.

Lemma has_id_false (i : string) (rows : list Row) :
  ~ In i (map r_id rows) -> has_id i rows = false.
Proof.
  unfold has_id. induction rows as [|r rows IH]; [reflexivity|].
  cbn. intros H. apply orb_false_iff. split.
  - apply String.eqb_neq. intros E. apply H. now left.
  - apply IH. intros HIn. apply H. now right.
Qed.

Lemma fresh_ids_head (w : World) (n : nat) :
  fresh_ids w (S n) -> ~ In (randomUUID (uuid_next w)) (map r_id (store w)).
Proof.
  unfold fresh_ids. cbn [seq map]. intros H HIn.
  apply NoDup_remove_2 in H. apply H. apply in_or_app. now left.
Qed.

(** A sentiment other than [null] is kept as a text. *)
Lemma stored_text_is_text (v : json) :
  v <> JNull -> exists s, stored_text v = JStr s.
Proof.
  intros Hv. destruct v; try (eexists; reflexivity). now contradiction Hv.
Qed.

Lemma stored_text_of_text (s : string) : stored_text (JStr s) = JStr s.
Proof. reflexivity. Qed.

Lemma sentiments_convert_cons (w : World) (item : RawItem)
    (rest : list RawItem) :
  sentiments_convert w (item :: rest) ->
  ToString_raises
    (j_sentiment (judge (AI_run (ai_log w) (classifier_request (i_content item)))))
  = false /\
  sentiments_convert
    {| store := store w; clock := clock w;
       ai_log := ai_log w ++ [classifier_request (i_content item)];
       uuid_next := S (uuid_next w) |} rest.
Proof.
  unfold sentiments_convert. cbn [judgments_of ai_log].
  intros H. inversion H; subst. split; assumption.
Qed.

Lemma sentiments_convert_app (w : World) (pre rest : list RawItem) :
  sentiments_convert w (pre ++ rest) -> sentiments_convert w pre.
Proof.
  unfold sentiments_convert. generalize (ai_log w).
  induction pre as [|item pre IH]; intros log H; cbn [judgments_of app] in *.
  - constructor.
  - inversion H; subst. constructor; [assumption|]. now apply IH.
Qed.

(** The fallback, and every sentiment that is a text, can be bound. *)
Lemma fallback_converts (o : ai_outcome) :
  classification_fails o -> ToString_raises (j_sentiment (judge o)) = false.
Proof.
  intros H. inversion H as [|r Hm|r m Hm Hp]; subst; cbn [judge].
  - reflexivity.
  - now rewrite Hm.
  - now rewrite Hm, Hp.
Qed.

(** One turn of the loop on an item that is stored. *)
Lemma ingest_loop_step (item : RawItem) (rest : list RawItem)
    (acc : list FeedbackItem) (w : World) s c t :
  i_source item = Some s -> i_content item = Some c ->
  i_timestamp item = Some t ->
  ~ In (randomUUID (uuid_next w)) (map r_id (store w)) ->
  let j := judge (AI_run (ai_log w) (classifier_request (i_content item))) in
  let i := randomUUID (uuid_next w) in
  ToString_raises (j_sentiment j) = false ->
  ingest_loop (item :: rest) acc w =
  ingest_loop rest
    (acc ++ [{| id := spread_id (i_id item) i;
                source := i_source item; f_content := i_content item;
                timestamp := i_timestamp item; sentiment := j_sentiment j;
                score := j_score j; themes := j_themes j;
                metadata := i_metadata item |}])
    {| store := store w ++
         [{| r_id := i; r_source := s; r_content := c; r_timestamp := t;
             r_sentiment := stored_text (j_sentiment j); r_score := j_score j;
             r_themes := j_themes j;
             r_metadata := metadata_or_empty (i_metadata item) |}];
       clock := clock w;
       ai_log := ai_log w ++ [classifier_request (i_content item)];
       uuid_next := S (uuid_next w) |}.
Proof.
  intros Hs Hc Ht Hfresh j i Hconv. subst j i.
  cbn [ingest_loop]. unfold bind at 1. unfold crypto_randomUUID.
  unfold bind at 1. rewrite classify_run. unfold log_call.
  cbn [store clock ai_log uuid_next].
  unfold bind at 1. unfold sql_insert. cbn [store clock ai_log uuid_next].
  rewrite Hconv, Hs, Hc, Ht.
  rewrite (has_id_false _ _ Hfresh). reflexivity.
Qed.

(** The loop runs through a prefix of the batch whose items are
    well-formed and classified with a sentiment that can be bound. *)
Lemma ingest_loop_prefix (pre rest : list RawItem) :
  forall (acc : list FeedbackItem) (w : World),
    Forall well_formed pre ->
    fresh_ids w (List.length pre) ->
    sentiments_convert w pre ->
    exists out w' rows,
      ingest_loop (pre ++ rest) acc w = ingest_loop rest (acc ++ out) w' /\
      Forall2 classified_from pre out /\
      Forall2 stored_as out rows /\
      store w' = store w ++ rows /\
      ai_log w' = ai_log w ++ requests_of pre /\
      clock w' = clock w /\
      map judgment_of out = judgments_of (ai_log w) pre /\
      map r_id rows = drawn_ids w (List.length pre) /\
      map id out = returned_ids w pre.
Proof.
  induction pre as [|item pre IH]; intros acc w Hwf Hfresh Hconv.
  - exists [], w, []. cbn. rewrite !app_nil_r. repeat split; constructor.
  - inversion Hwf as [|? ? (s & c & t & Hs & Hc & Ht) Hwf']; subst.
    pose proof (fresh_ids_head _ _ Hfresh) as Hhead.
    destruct (sentiments_convert_cons _ _ _ Hconv) as [Hj Hconv'].
    cbn [app].
    rewrite (ingest_loop_step item (pre ++ rest) acc w s c t Hs Hc Ht Hhead Hj).
    match goal with
    | |- context [ingest_loop (pre ++ rest) ?a ?w1] =>
        destruct (IH a w1 Hwf')
          as (out & w' & rows & Hrun & Hcl & Hst & Hstore & Hlog & Hclk
              & Hjs & Hids & Hret)
    end.
    { unfold fresh_ids in *. cbn [store uuid_next].
      cbn [List.length seq map] in Hfresh.
      rewrite map_app. cbn [map r_id]. rewrite <- app_assoc. exact Hfresh. }
    { unfold sentiments_convert in *. cbn [ai_log] in *. exact Hconv'. }
    cbn [store ai_log clock uuid_next] in *.
    eexists (_ :: out), w', (_ :: rows).
    rewrite Hrun, <- app_assoc. split; [reflexivity|].
    split; [|split; [|split; [|split; [|split; [|split; [|split]]]]]]; cycle 2.
    + rewrite Hstore, <- app_assoc. reflexivity.
    + rewrite Hlog, <- app_assoc. reflexivity.
    + exact Hclk.
    + cbn [map judgments_of]. rewrite Hjs. unfold judgment_of.
      cbn [sentiment score themes]. now destruct (judge _).
    + unfold drawn_ids in *. cbn [map r_id List.length seq uuid_next] in *.
      now rewrite Hids.
    + unfold returned_ids, drawn_ids in *.
      cbn [map id List.length seq combine fst snd uuid_next] in *.
      now rewrite Hret.
    + constructor; [|exact Hcl].
      unfold classified_from. cbn.
      do 4 (split; [reflexivity|]).
      exists (AI_run (ai_log w) (classifier_request (i_content item))).
      repeat split.
    + constructor; [|exact Hst].
      unfold stored_as. cbn. now rewrite Hs, Hc, Ht.
Qed.

Lemma ingest_loop_ok (items : list RawItem) (acc : list FeedbackItem)
    (w : World) :
  Forall well_formed items ->
  fresh_ids w (List.length items) ->
  sentiments_convert w items ->
  exists out w' rows,
    ingest_loop items acc w = (Ok (acc ++ out), w') /\
    Forall2 classified_from items out /\
    Forall2 stored_as out rows /\
    store w' = store w ++ rows /\
    ai_log w' = ai_log w ++ requests_of items /\
    clock w' = clock w /\
    map judgment_of out = judgments_of (ai_log w) items /\
    map r_id rows = drawn_ids w (List.length items) /\
    map id out = returned_ids w items.
Proof.
  intros Hwf Hfresh Hconv.
  destruct (ingest_loop_prefix items [] acc w Hwf Hfresh Hconv)
    as (out & w' & rows & Hrun & H).
  rewrite app_nil_r in Hrun. exists out, w', rows. split; [exact Hrun | exact H].
Qed.

Lemma fresh_ids_prefix (w : World) (m k : nat) :
  fresh_ids w (m + k) -> fresh_ids w m.
Proof.
  unfold fresh_ids. rewrite seq_app, map_app, app_assoc.
  apply NoDup_app_remove_r.
Qed.

Lemma judgments_of_app (log : list ai_request) (a b : list RawItem) :
  judgments_of log (a ++ b) =
  judgments_of log a ++ judgments_of (log ++ requests_of a) b.
Proof.
  revert log. induction a as [|item a IH]; intros log; cbn [app judgments_of].
  - unfold requests_of. cbn. now rewrite app_nil_r.
  - rewrite IH. unfold requests_of. cbn [map]. now rewrite <- app_assoc.
Qed.

(** Either every sentiment of the batch can be bound, or there is a
    first item whose sentiment cannot. *)
Lemma first_unbound (log : list ai_request) (pre : list RawItem) :
  Forall (fun j => ToString_raises (j_sentiment j) = false)
         (judgments_of log pre) \/
  exists done x later,
    pre = done ++ x :: later /\
    Forall (fun j => ToString_raises (j_sentiment j) = false)
           (judgments_of log done) /\
    ToString_raises
      (j_sentiment (judge (AI_run (log ++ requests_of done)
                                  (classifier_request (i_content x))))) = true.
Proof.
  revert log. induction pre as [|item pre IH]; intros log.
  - left. constructor.
  - destruct (ToString_raises
                (j_sentiment (judge (AI_run log (classifier_request (i_content item))))))
      eqn:E.
    + right. exists [], item, pre. cbn. rewrite app_nil_r.
      repeat split; [constructor|exact E].
    + destruct (IH (log ++ [classifier_request (i_content item)]))
        as [H|(done & x & later & Hpre & Hdone & Hx)].
      * left. cbn [judgments_of]. now constructor.
      * right. exists (item :: done), x, later. subst pre.
        split; [reflexivity|]. split.
        -- cbn [judgments_of]. now constructor.
        -- unfold requests_of in *. cbn [map].
           rewrite <- app_assoc in Hx. exact Hx.
Qed.

(** On a malformed item the [INSERT] raises, after the item's AI call,
    and the loop is left. *)
Lemma ingest_loop_malformed (bad : RawItem) (post : list RawItem)
    (acc : list FeedbackItem) (w : World) :
  ~ well_formed bad ->
  exists e,
    ingest_loop (bad :: post) acc w =
    (Throw e,
     {| store := store w; clock := clock w;
        ai_log := ai_log w ++ [classifier_request (i_content bad)];
        uuid_next := S (uuid_next w) |}) /\
    (e = TypeError \/ exists column, e = ConstraintNotNull column).
Proof.
  intros Hbad. cbn [ingest_loop].
  unfold bind at 1. unfold crypto_randomUUID.
  unfold bind at 1. rewrite classify_run. unfold log_call.
  cbn [store clock ai_log uuid_next].
  unfold bind at 1. unfold sql_insert. cbn [store clock ai_log uuid_next].
  destruct (ToString_raises _); [eexists; split; [reflexivity|now left]|].
  destruct (i_source bad) as [s|] eqn:Hs;
    [|eexists; split; [reflexivity|right; eexists; reflexivity]].
  destruct (i_content bad) as [c|] eqn:Hc;
    [|eexists; split; [reflexivity|right; eexists; reflexivity]].
  destruct (i_timestamp bad) as [t|] eqn:Ht;
    [|eexists; split; [reflexivity|right; eexists; reflexivity]].
  exfalso. apply Hbad. now exists s, c, t.
Qed.

(** A sentiment without ToString ends the loop with a TypeError, after
    the item's AI call and before anything is written. *)
Lemma ingest_loop_unbound (item : RawItem) (rest : list RawItem)
    (acc : list FeedbackItem) (w : World) :
  ToString_raises
    (j_sentiment (judge (AI_run (ai_log w) (classifier_request (i_content item)))))
  = true ->
  ingest_loop (item :: rest) acc w =
  (Throw TypeError,
   {| store := store w; clock := clock w;
      ai_log := ai_log w ++ [classifier_request (i_content item)];
      uuid_next := S (uuid_next w) |}).
Proof.
  intros H. cbn [ingest_loop].
  unfold bind at 1. unfold crypto_randomUUID.
  unfold bind at 1. rewrite classify_run. unfold log_call.
  cbn [store clock ai_log uuid_next].
  unfold bind at 1. unfold sql_insert. cbn [store clock ai_log uuid_next].
  now rewrite H.
Qed.

Lemma classified_sentiment_truthy (item : RawItem) (f : FeedbackItem) :
  classified_from item f -> truthy (sentiment f) = true.
Proof.
  intros (_ & _ & _ & _ & o & Hs & _). rewrite Hs. apply judge_sentiment_truthy.
Qed.

(** On a batch of well-formed inputs whose sentiments can be bound (and
    identifiers that are new, as [crypto.randomUUID] promises),
    [ingestFeedback] returns one classified item per input, in input
    order, each with the judgment of its own AI call; every returned
    item has a sentiment that is neither [null] nor otherwise falsy; and
    the table grows by exactly one row per item, in the same order,
    under the identifiers drawn. *)
Lemma ingestFeedback_stores_batch (w : World) (items : list RawItem) :
  Forall well_formed items ->
  fresh_ids w (List.length items) ->
  sentiments_convert w items ->
  exists out w' rows,
    ingestFeedback items w = (Ok out, w') /\
    List.length out = List.length items /\
    Forall2 classified_from items out /\
    map judgment_of out = judgments_of (ai_log w) items /\
    map id out = returned_ids w items /\
    Forall (fun f => sentiment f <> JNull /\ truthy (sentiment f) = true) out /\
    store w' = store w ++ rows /\
    List.length rows = List.length out /\
    Forall2 stored_as out rows /\
    map r_id rows = drawn_ids w (List.length items) /\
    ai_log w' = ai_log w ++ requests_of items.
Proof.
  intros Hwf Hfresh Hconv.
  destruct (ingest_loop_ok items [] w Hwf Hfresh Hconv)
    as (out & w' & rows & Hrun & Hcl & Hst & Hstore & Hlog & _ & Hjs & Hids & Hret).
  exists out, w', rows. unfold ingestFeedback.
  repeat split; try assumption.
  - symmetry. eapply Forall2_length; eassumption.
  - clear - Hcl. induction Hcl as [|item f items out H _ IH]; constructor; auto.
    pose proof (classified_sentiment_truthy _ _ H) as Ht.
    split; [|exact Ht]. now apply truthy_not_null.
  - symmetry. eapply Forall2_length; eassumption.
Qed.

(** C2. The fallback policy of the classifier adapter: when the AI call
    fails, when its answer holds no brace-delimited text, or when that
    text does not parse, the judgment is neutral / 5 / no themes; a
    parsed object without [sentiment] gets neutral, one whose [score] is
    missing or not a number gets 5, one whose [themes] is not an array
    gets no themes.  The [try] block never raises and leaves the table
    alone; the fallback sentiment can always be written, so that a
    well-formed item whose classification fails is stored with the
    fallback and the loop goes on with the items after it.  Hence a
    well-formed batch is either processed to the end, every item being
    classified (one AI call each, the judgment being that of the item's
    own call) and returned, or left at an item whose classification did
    not fail and gave a sentiment that cannot be written; it is
    processed to the end, whichever of the calls fail, when the
    sentiments the other calls give can be written. *)
Theorem classification_fallback_policy :
  (forall o, classification_fails o -> judge o = fallback) /\
  (forall r m props,
      match_braces (response_text r) = Some m ->
      JSON_parse m = Some (JObj props) ->
      (assoc "sentiment" props = None ->
       j_sentiment (judge (AiResponse r)) = JStr "neutral") /\
      ((forall q, assoc "score" props <> Some (JNum q)) ->
       j_score (judge (AiResponse r)) = 5%Q) /\
      ((forall l, assoc "themes" props <> Some (JArr l)) ->
       j_themes (judge (AiResponse r)) = [])) /\
  (forall item w,
      exists w',
        classify item w =
        (Ok (judge (AI_run (ai_log w) (classifier_request (i_content item)))), w')
        /\ store w' = store w) /\
  (forall o, classification_fails o ->
             ToString_raises (j_sentiment (judge o)) = false) /\
  (forall item rest acc w,
      well_formed item ->
      ~ In (randomUUID (uuid_next w)) (map r_id (store w)) ->
      classification_fails
        (AI_run (ai_log w) (classifier_request (i_content item))) ->
      exists f r w',
        ingest_loop (item :: rest) acc w = ingest_loop rest (acc ++ [f]) w' /\
        classified_from item f /\ judgment_of f = fallback /\
        stored_as f r /\ r_sentiment r = JStr "neutral" /\
        store w' = store w ++ [r] /\
        ai_log w' = ai_log w ++ [classifier_request (i_content item)]) /\
  (forall w items,
      Forall well_formed items ->
      fresh_ids w (List.length items) ->
      (exists out w',
          ingestFeedback items w = (Ok out, w') /\
          Forall2 classified_from items out /\
          map judgment_of out = judgments_of (ai_log w) items /\
          ai_log w' = ai_log w ++ requests_of items) \/
      (exists done x later w',
          items = done ++ x :: later /\
          ingestFeedback items w = (Throw TypeError, w') /\
          ~ classification_fails
              (AI_run (ai_log w ++ requests_of done)
                      (classifier_request (i_content x))) /\
          ToString_raises
            (j_sentiment (judge (AI_run (ai_log w ++ requests_of done)
                                        (classifier_request (i_content x)))))
          = true /\
          ai_log w' = ai_log w ++ requests_of (done ++ [x]))) /\
  (forall w items,
      Forall well_formed items ->
      fresh_ids w (List.length items) ->
      sentiments_convert w items ->
      exists out w',
        ingestFeedback items w = (Ok out, w') /\
        Forall2 classified_from items out /\
        map judgment_of out = judgments_of (ai_log w) items /\
        ai_log w' = ai_log w ++ requests_of items).
Proof.
  assert (Hfall : forall o, classification_fails o -> judge o = fallback).
  { intros o H. inversion H as [|r Hm|r m Hm Hp]; subst; cbn [judge].
    - reflexivity.
    - now rewrite Hm.
    - now rewrite Hm, Hp. }
  split; [|split; [|split; [|split; [|split; [|split]]]]].
  - exact Hfall.
  - intros r m props Hm Hp. cbn [judge]. rewrite Hm, Hp.
    cbn [assignments get_prop j_sentiment j_score j_themes].
    split; [|split].
    + intros ->. reflexivity.
    + intros Hscore. destruct (assoc "score" props) as [[]|]; try reflexivity.
      now contradiction (Hscore q).
    + intros Hthemes. destruct (assoc "themes" props) as [[]|]; try reflexivity.
      now contradiction (Hthemes elems).
  - intros item w. eexists. rewrite classify_run. split; reflexivity.
  - apply fallback_converts.
  - intros item rest acc w (s & c & t & Hs & Hc & Ht) Hfresh Hfail.
    pose proof (fallback_converts _ Hfail) as Hconv.
    pose proof (Hfall _ Hfail) as Hj.
    rewrite (ingest_loop_step item rest acc w s c t Hs Hc Ht Hfresh Hconv).
    rewrite Hj. cbn [fallback j_sentiment j_score j_themes].
    eexists.
    exists {| r_id := randomUUID (uuid_next w); r_source := s; r_content := c;
              r_timestamp := t; r_sentiment := JStr "neutral"; r_score := 5%Q;
              r_themes := [];
              r_metadata := metadata_or_empty (i_metadata item) |}.
    eexists. split; [reflexivity|].
    split.
    { unfold classified_from. cbn. do 4 (split; [reflexivity|]).
      exists (AI_run (ai_log w) (classifier_request (i_content item))).
      rewrite Hj. repeat split. }
    split; [reflexivity|].
    split; [unfold stored_as; cbn; now rewrite Hs, Hc, Ht|].
    cbn. repeat split.
  - intros w items Hwf Hfresh.
    destruct (first_unbound (ai_log w) items)
      as [Hconv|(done & x & later & Hitems & Hdone & Hx)].
    + left.
      destruct (ingest_loop_ok items [] w Hwf Hfresh Hconv)
        as (out & w' & rows & Hrun & Hcl & _ & _ & Hlog & _ & Hjs & _).
      exists out, w'. unfold ingestFeedback. rewrite Hrun. auto.
    + right. subst items.
      apply Forall_app in Hwf. destruct Hwf as [Hwf _].
      rewrite length_app in Hfresh. apply fresh_ids_prefix in Hfresh.
      destruct (ingest_loop_prefix done (x :: later) [] w Hwf Hfresh Hdone)
        as (out & w1 & rows & Hrun & _ & _ & _ & Hlog & _).
      assert (Hthrow := ingest_loop_unbound x later ([] ++ out) w1).
      rewrite Hlog in Hthrow. specialize (Hthrow Hx).
      exists done, x, later. eexists.
      split; [reflexivity|]. unfold ingestFeedback. rewrite Hrun, Hthrow.
      split; [reflexivity|]. split.
      * intros Hf. apply fallback_converts in Hf. congruence.
      * split; [exact Hx|]. cbn [ai_log].
        unfold requests_of. rewrite map_app, app_assoc. reflexivity.
  - intros w items Hwf Hfresh Hconv.
    destruct (ingest_loop_ok items [] w Hwf Hfresh Hconv)
      as (out & w' & rows & Hrun & Hcl & _ & _ & Hlog & _ & Hjs & _).
    exists out, w'. unfold ingestFeedback. rewrite Hrun. auto.
Qed.

(** A sentiment text that is not empty is kept as it is. *)
Lemma judge_keeps_sentiment_text (r : option string) (m : string)
    (props : list (string * json)) (s : string) :
  match_braces (response_text r) = Some m ->
  JSON_parse m = Some (JObj props) ->
  assoc "sentiment" props = Some (JStr s) ->
  s <> EmptyString ->
  j_sentiment (judge (AiResponse r)) = JStr s.
Proof.
  intros Hm Hp Hs Hne. cbn [judge]. rewrite Hm, Hp.
  cbn [assignments get_prop j_sentiment]. rewrite Hs. cbn.
  apply String.eqb_neq in Hne. now rewrite Hne.
Qed.

(** C9, as amended.  When the batch holds a malformed item after a
    prefix of well-formed items, the request is answered with a server
    error.  The loop ends at the first item whose [INSERT] raises: the
    malformed item, or an item before it whose sentiment cannot be
    bound.  The items before that one stay in the table, one row each;
    the AI calls made are theirs and that of the item the loop ends at,
    which is classified but not stored; no item after it is classified
    or stored.  When the sentiments of the prefix can all be bound, the
    loop ends at the malformed item. *)
Theorem ingest_stops_at_first_malformed_item (w : World)
    (pre post : list RawItem) (bad : RawItem) :
  Forall well_formed pre ->
  ~ well_formed bad ->
  fresh_ids w (List.length pre) ->
  exists e w' done stop rest kept rows,
    pre ++ bad :: post = done ++ stop :: rest /\
    (exists later, pre = done ++ later) /\
    fetch (POST_ingest (Some (pre ++ bad :: post))) w =
      (Ok (ServerError e), w') /\
    (e = TypeError \/ exists column, e = ConstraintNotNull column) /\
    Forall2 classified_from done kept /\
    map judgment_of kept = judgments_of (ai_log w) done /\
    Forall2 stored_as kept rows /\
    store w' = store w ++ rows /\
    List.length rows = List.length done /\
    ai_log w' = ai_log w ++ requests_of (done ++ [stop]) /\
    (sentiments_convert w pre -> done = pre /\ stop = bad /\ rest = post).
Proof.
  intros Hwf Hbad Hfresh.
  destruct (first_unbound (ai_log w) pre)
    as [Hconv|(done & x & later & Hpre & Hdone & Hx)].
  - destruct (ingest_loop_prefix pre (bad :: post) [] w Hwf Hfresh Hconv)
      as (out & w1 & rows & Hrun & Hcl & Hst & Hstore & Hlog & _ & Hjs & _).
    destruct (ingest_loop_malformed bad post ([] ++ out) w1 Hbad)
      as (e & Hthrow & He).
    exists e. eexists. exists pre, bad, post, out, rows.
    split; [reflexivity|]. split; [exists []; now rewrite app_nil_r|].
    unfold fetch, try_catch. unfold bind at 1. unfold ingestFeedback.
    rewrite Hrun, Hthrow. cbn [ret].
    split; [reflexivity|]. cbn [store ai_log].
    repeat split; try assumption.
    + rewrite <- (Forall2_length Hst). symmetry. exact (Forall2_length Hcl).
    + unfold requests_of in *. rewrite map_app, app_assoc, <- Hlog. reflexivity.
  - subst pre.
    apply Forall_app in Hwf. destruct Hwf as [Hwf _].
    rewrite length_app in Hfresh. apply fresh_ids_prefix in Hfresh.
    destruct (ingest_loop_prefix done (x :: later ++ bad :: post) [] w
                Hwf Hfresh Hdone)
      as (out & w1 & rows & Hrun & Hcl & Hst & Hstore & Hlog & _ & Hjs & _).
    assert (Hthrow := ingest_loop_unbound x (later ++ bad :: post) ([] ++ out) w1).
    rewrite Hlog in Hthrow. specialize (Hthrow Hx).
    exists TypeError. eexists. exists done, x, (later ++ bad :: post), out, rows.
    split; [now rewrite <- app_assoc|]. split; [now exists (x :: later)|].
    unfold fetch, try_catch. unfold bind at 1. unfold ingestFeedback.
    rewrite <- app_assoc. cbn [app]. rewrite Hrun, Hthrow. cbn [ret].
    split; [reflexivity|]. cbn [store ai_log].
    split; [now left|].
    repeat split; try assumption.
    + rewrite <- (Forall2_length Hst). symmetry. exact (Forall2_length Hcl).
    + unfold requests_of. rewrite map_app, app_assoc. reflexivity.
    + exfalso. unfold sentiments_convert in H.
      rewrite judgments_of_app in H. apply Forall_app in H.
      destruct H as [_ H]. cbn [judgments_of] in H. inversion H; subst.
      congruence.
    + exfalso. unfold sentiments_convert in H.
      rewrite judgments_of_app in H. apply Forall_app in H.
      destruct H as [_ H]. cbn [judgments_of] in H. inversion H; subst.
      congruence.
    + exfalso. unfold sentiments_convert in H.
      rewrite judgments_of_app in H. apply Forall_app in H.
      destruct H as [_ H]. cbn [judgments_of] in H. inversion H; subst.
      congruence.
Qed.

End IngestionProofs.

(* ================================================================== *)
(** * Rounding and averages *)
(* ================================================================== *)

Section NumericProofs.
Local Open Scope Q_scope.

Lemma pow2_pos (e : Z) : 0 < pow2 e.
Proof. apply Qpower_0_lt. reflexivity. Qed.

Lemma pow2_add (a b : Z) : pow2 (a + b) == pow2 a * pow2 b.
Proof. apply Qpower_plus. discriminate. Qed.

Lemma pow2_lt (a b : Z) : (a < b)%Z -> pow2 a < pow2 b.
Proof. intros H. apply Qpower_lt_compat_l; [exact H|reflexivity]. Qed.

Lemma pow2_le (a b : Z) : (a <= b)%Z -> pow2 a <= pow2 b.
Proof. intros H. apply Qpower_le_compat_l; [exact H|discriminate]. Qed.

Lemma pow2_lt_inv (a b : Z) : pow2 a < pow2 b -> (a < b)%Z.
Proof. intros H. apply (Qpower_lt_compat_l_inv 2); [exact H|reflexivity]. Qed.

Lemma pow2_half (e : Z) : (1 # 2) * pow2 e == pow2 (e - 1).
Proof.
  replace e with ((e - 1) + 1)%Z at 1 by ring.
  rewrite pow2_add. change (pow2 1) with 2. field.
Qed.

Lemma pow2_nat (k : Z) : (0 <= k)%Z -> pow2 k == inject_Z (2 ^ k).
Proof. intros H. unfold pow2. rewrite Zpower_Qpower by exact H. reflexivity. Qed.

Lemma Qabs_frac (x : Q) : Qabs x = (Z.abs (Qnum x) # Qden x).
Proof. destruct x. reflexivity. Qed.

(** [2^(Qlog2 x)] is at most [|x|]. *)
Lemma Qlog2_lower (x : Q) : ~ x == 0 -> pow2 (Qlog2 x) <= Qabs x.
Proof.
  intros Hx. unfold Qlog2.
  set (n := Z.abs (Qnum x)). set (d := Zpos (Qden x)).
  set (a := (Z.log2 n - Z.log2 d)%Z).
  destruct (Qle_bool (pow2 a) (Qabs x)) eqn:E.
  - apply Qle_bool_iff. exact E.
  - assert (Hn : (0 < n)%Z).
    { subst n. destruct x as [[|p|p] q]; cbn; try lia.
      exfalso. apply Hx. reflexivity. }
    assert (Hd : (0 < d)%Z) by (subst d; lia).
    destruct (Z.log2_spec n Hn) as [Hn1 _].
    destruct (Z.log2_spec d Hd) as [_ Hd2].
    pose proof (Z.log2_nonneg n) as Ln. pose proof (Z.log2_nonneg d) as Ld.
    rewrite Qabs_frac. fold n.
    assert (Hq : (n # Qden x) == inject_Z n / inject_Z d).
    { subst d. unfold Qdiv, Qinv, Qmult, Qeq, inject_Z. cbn. lia. }
    rewrite Hq.
    assert (Hp : pow2 (a - 1) == pow2 (Z.log2 n) / pow2 (Z.log2 d + 1)).
    { replace (a - 1)%Z with (Z.log2 n + - (Z.log2 d + 1))%Z by (subst a; lia).
      rewrite pow2_add. unfold pow2 at 2. rewrite Qpower_opp. reflexivity. }
    rewrite Hp.
    rewrite (pow2_nat (Z.log2 n)) by lia.
    rewrite (pow2_nat (Z.log2 d + 1)) by lia.
    assert (H1 : inject_Z (2 ^ Z.log2 n) <= inject_Z n)
      by (rewrite <- Zle_Qle; exact Hn1).
    assert (H2 : inject_Z d <= inject_Z (2 ^ (Z.log2 d + 1))).
    { rewrite <- Zle_Qle. unfold Z.succ in Hd2. lia. }
    assert (H3 : 0 < inject_Z d) by (rewrite <- (Zlt_Qlt 0); exact Hd).
    assert (H4 : 0 < inject_Z (2 ^ Z.log2 n)).
    { rewrite <- (Zlt_Qlt 0). apply Z.pow_pos_nonneg; lia. }
    apply Qle_shift_div_l; [exact H3|].
    apply Qle_trans with (inject_Z (2 ^ Z.log2 n)); [|exact H1].
    unfold Qdiv. rewrite <- Qmult_assoc.
    rewrite <- (Qmult_1_r (inject_Z (2 ^ Z.log2 n))) at 2.
    apply Qmult_le_l; [exact H4|].
    rewrite Qmult_comm. apply Qle_shift_div_r; [lra|lra].
Qed.

Lemma Qlog2_below (x : Q) (j : Z) :
  ~ x == 0 -> Qabs x < pow2 j -> (Qlog2 x < j)%Z.
Proof.
  intros Hx Hj. apply pow2_lt_inv.
  eapply Qle_lt_trans; [apply Qlog2_lower, Hx|exact Hj].
Qed.

Lemma round_half_even_error (y : Q) :
  Qabs (inject_Z (round_half_even y) - y) <= 1 # 2.
Proof.
  unfold round_half_even.
  pose proof (Qfloor_le y) as Hlo. pose proof (Qlt_floor y) as Hhi.
  rewrite inject_Z_plus in Hhi. change (inject_Z 1) with 1 in Hhi.
  apply Qabs_Qle_condition.
  destruct (Qcompare_spec (y - inject_Z (Qfloor y)) (1 # 2)) as [E|E|E].
  - destruct (Z.even (Qfloor y)); [|rewrite inject_Z_plus; change (inject_Z 1) with 1];
      split; lra.
  - split; lra.
  - rewrite inject_Z_plus. change (inject_Z 1) with 1. split; lra.
Qed.

Lemma fl_zero (x : Q) : x == 0 -> fl x = 0.
Proof.
  intros H. unfold fl.
  assert (E : Qeq_bool x 0 = true) by (apply Qeq_bool_iff; exact H).
  now rewrite E.
Qed.

Lemma fl_value (x : Q) :
  ~ x == 0 ->
  fl x == inject_Z (round_half_even (x / pow2 (double_exponent x)))
          * pow2 (double_exponent x).
Proof.
  intros H. unfold fl.
  destruct (Qeq_bool x 0) eqn:E.
  - exfalso. apply H. apply Qeq_bool_iff. exact E.
  - apply Qred_correct.
Qed.

(** The rounding error of a number below [2^j] is at most half a unit
    in the last place of that range. *)
Lemma fl_error (x : Q) (j : Z) :
  Qabs x < pow2 j -> (-1021 <= j)%Z ->
  Qabs (fl x - x) <= pow2 (j - 54).
Proof.
  intros Hj Hmin.
  destruct (Qeq_dec x 0) as [Hx|Hx].
  - rewrite (fl_zero x Hx).
    assert (E : 0 - x == 0) by (rewrite Hx; reflexivity).
    rewrite E. apply Qlt_le_weak, pow2_pos.
  - rewrite (fl_value x Hx).
    set (e := double_exponent x).
    assert (He : (e <= j - 53)%Z).
    { subst e. unfold double_exponent.
      pose proof (Qlog2_below x j Hx Hj). lia. }
    set (y := x / pow2 e).
    pose proof (pow2_pos e) as Hpos.
    assert (Hxy : x == y * pow2 e).
    { subst y. field. intros H0. rewrite H0 in Hpos. discriminate Hpos. }
    assert (E : inject_Z (round_half_even y) * pow2 e - x
                == (inject_Z (round_half_even y) - y) * pow2 e).
    { rewrite Hxy at 1. ring. }
    rewrite E, Qabs_Qmult, (Qabs_pos (pow2 e)) by (apply Qlt_le_weak, Hpos).
    apply Qle_trans with ((1 # 2) * pow2 e).
    + apply Qmult_le_compat_r; [apply round_half_even_error|].
      apply Qlt_le_weak, Hpos.
    + rewrite pow2_half. apply pow2_le. lia.
Qed.

Lemma fl_bound (x : Q) (j : Z) :
  Qabs x < pow2 j -> (-1021 <= j)%Z -> Qabs (fl x) < pow2 (j + 1).
Proof.
  intros Hj Hmin.
  pose proof (fl_error x j Hj Hmin) as He.
  assert (Hle : pow2 (j - 54) <= pow2 j) by (apply pow2_le; lia).
  assert (E : fl x == (fl x - x) + x) by ring.
  rewrite E. eapply Qle_lt_trans; [apply Qabs_triangle|].
  rewrite pow2_add. change (pow2 1) with 2. lra.
Qed.

Lemma to_double_finite (x : Q) (j : Z) :
  Qabs x < pow2 j -> (-1021 <= j <= 1023)%Z -> to_double x = Finite (fl x).
Proof.
  intros Hj [Hmin Hmax]. unfold to_double.
  destruct (Qle_bool (pow2 1024) (Qabs (fl x))) eqn:E; [|reflexivity].
  apply Qle_bool_iff in E.
  pose proof (fl_bound x j Hj Hmin) as Hb.
  assert (pow2 (j + 1) <= pow2 1024) by (apply pow2_le; lia).
  lra.
Qed.

(** A number of magnitude below [2^j] is rounded to a finite double at
    distance at most [2^(j-54)]. *)
Lemma fl_within (j : Z) (x : Q) :
  (-1021 <= j <= 1023)%Z ->
  - pow2 j < x < pow2 j ->
  to_double x = Finite (fl x) /\
  x - pow2 (j - 54) <= fl x <= x + pow2 (j - 54).
Proof.
  intros Hj Hx.
  assert (Habs : Qabs x < pow2 j) by (apply Qabs_Qlt_condition; exact Hx).
  split; [apply (to_double_finite x j Habs Hj)|].
  pose proof (fl_error x j Habs (proj1 Hj)) as He.
  apply Qabs_Qle_condition in He. lra.
Qed.

Lemma Math_round_bounds (x : Q) :
  x - (1 # 2) < inject_Z (Math_round x) /\ inject_Z (Math_round x) <= x + (1 # 2).
Proof.
  unfold Math_round. split.
  - pose proof (Qlt_floor (x + (1 # 2))) as H.
    rewrite inject_Z_plus in H. change (inject_Z 1) with 1%Q in H. lra.
  - apply Qfloor_le.
Qed.












End NumericProofs.

Section DashboardProofs.
Context `{P : Platform}.

Lemma getRecentFeedback_run (limit : Z) (w : World) :
  getRecentFeedback limit w =
  (Ok (map item_of_row (sql_limit limit (stable_sort newer (store w)))), w).
Proof. reflexivity. Qed.

Lemma getDashboardData_run (w : World) :
  exists d, getDashboardData w = (Ok d, w) /\
    averageScore d = round1 (or_zero (sql_AVG (map r_score (store w)))) /\
    topThemes d = topThemes_of (map item_of_row (firstn 100 (stable_sort newer (store w)))) /\
    themeHealth d = themeHealth_of (map item_of_row (firstn 100 (stable_sort newer (store w)))).
Proof.
  eexists. split.
  - unfold getDashboardData, getRecentFeedback, bind, gets, ret. reflexivity.
  - cbn [averageScore topThemes themeHealth]. repeat split.
Qed.


End DashboardProofs.
(* ================================================================== *)
(** * Sorting and grouping *)
(* ================================================================== *)

Section SortingProofs.
Context {A : Type} (before : A -> A -> bool).

Lemma insert_by_perm (x : A) (l : list A) :
  Permutation (insert_by before x l) (x :: l).
Proof.
  induction l as [|y l IH]; cbn; [reflexivity|].
  destruct (before y x); [|reflexivity].
  rewrite IH. apply perm_swap.
Qed.

Lemma stable_sort_perm (l : list A) : Permutation (stable_sort before l) l.
Proof.
  induction l as [|x l IH]; cbn; [reflexivity|].
  rewrite insert_by_perm. now constructor.
Qed.

Lemma stable_sort_In (x : A) (l : list A) :
  In x (stable_sort before l) <-> In x l.
Proof.
  split; apply Permutation_in;
    [apply stable_sort_perm | symmetry; apply stable_sort_perm].
Qed.

Lemma insert_by_sorted (R : A -> A -> Prop) (x : A) (l : list A) :
  (forall y, In y l -> before y x = false -> R x y) ->
  (forall y, In y l -> before y x = true -> R y x) ->
  (forall a b c, R a b -> R b c -> R a c) ->
  StronglySorted R l -> StronglySorted R (insert_by before x l).
Proof.
  intros Hf Ht Htrans Hs.
  induction Hs as [|y l Hs IH Hall]; cbn.
  - repeat constructor.
  - destruct (before y x) eqn:E.
    + constructor.
      * apply IH; intros; [apply Hf | apply Ht]; auto; now right.
      * rewrite Forall_forall in *. intros z Hz.
        apply (Permutation_in _ (insert_by_perm x l)) in Hz.
        destruct Hz as [<-|Hz]; [apply Ht; [now left|exact E]|now apply Hall].
    + assert (Hxy : R x y) by (apply Hf; [now left|exact E]).
      constructor; [now constructor|].
      constructor; [exact Hxy|].
      rewrite Forall_forall in *. intros z Hz.
      apply (Htrans _ y); [exact Hxy|now apply Hall].
Qed.

(** The result is sorted for every transitive relation [R] that the
    comparison decides on the elements of the list. *)
Lemma stable_sort_sorted (R : A -> A -> Prop) (l : list A) :
  (forall x y, In x l -> In y l -> before y x = false -> R x y) ->
  (forall x y, In x l -> In y l -> before y x = true -> R y x) ->
  (forall a b c, R a b -> R b c -> R a c) ->
  StronglySorted R (stable_sort before l).
Proof.
  intros Hf Ht Htrans.
  induction l as [|x l IH]; [constructor|].
  cbn [stable_sort fold_right]. fold (stable_sort before l).
  apply insert_by_sorted.
  - intros y Hy. apply Hf; [now left|right; exact (proj1 (stable_sort_In y l) Hy)].
  - intros y Hy. apply Ht; [now left|right; exact (proj1 (stable_sort_In y l) Hy)].
  - exact Htrans.
  - apply IH; intros; [apply Hf|apply Ht]; auto; now right.
Qed.



End SortingProofs.

Section KeyProofs.

Lemma key_compare_eq (a b : option string) :
  key_compare a b = Eq <-> a = b.
Proof.
  destruct a as [x|], b as [y|]; cbn; try (split; [discriminate|discriminate]).
  - rewrite (String_as_OT.cmp_eq x y). split; [now intros ->|now intros [= ->]].
  - split; reflexivity.
Qed.

Lemma key_compare_antisym (a b : option string) :
  key_compare a b = CompOpp (key_compare b a).
Proof.
  destruct a as [x|], b as [y|]; cbn; try reflexivity.
  apply String_as_OT.cmp_antisym.
Qed.

Lemma key_lt_trans (a b c : option string) :
  key_lt a b -> key_lt b c -> key_lt a c.
Proof.
  unfold key_lt. destruct a as [x|], b as [y|], c as [z|]; cbn; try discriminate; auto.
  intros H1 H2. apply String_as_OT.cmp_lt in H1, H2. apply String_as_OT.cmp_lt.
  eapply String_as_OT.lt_trans; eassumption.
Qed.

Lemma key_eqb_eq (a b : option string) : key_eqb a b = true <-> a = b.
Proof.
  unfold key_eqb. rewrite <- key_compare_eq.
  destruct (key_compare a b); split; congruence.
Qed.

Lemma insert_key_In (k x : option string) (l : list (option string)) :
  In x (insert_key k l) <-> x = k \/ In x l.
Proof.
  induction l as [|h t IH]; cbn.
  - intuition.
  - destruct (key_compare k h) eqn:E; cbn.
    + apply key_compare_eq in E. subst. intuition.
    + intuition.
    + rewrite IH. intuition.
Qed.

Lemma insert_key_sorted (k : option string) (l : list (option string)) :
  StronglySorted key_lt l -> StronglySorted key_lt (insert_key k l).
Proof.
  induction 1 as [|h t Hs IH Hall]; cbn.
  - repeat constructor.
  - destruct (key_compare k h) eqn:E.
    + now constructor.
    + constructor; [now constructor|].
      constructor; [exact E|].
      rewrite Forall_forall in *. intros z Hz.
      eapply key_lt_trans; [exact E|now apply Hall].
    + constructor; [exact IH|].
      rewrite Forall_forall in *. intros z Hz.
      apply insert_key_In in Hz. destruct Hz as [->|Hz]; [|now apply Hall].
      unfold key_lt. rewrite key_compare_antisym, E. reflexivity.
Qed.

Lemma distinct_sorted_In (x : option string) (l : list (option string)) :
  In x (distinct_sorted l) <-> In x l.
Proof.
  induction l as [|k l IH]; cbn; [reflexivity|].
  rewrite insert_key_In, IH. intuition.
Qed.

Lemma distinct_sorted_sorted (l : list (option string)) :
  StronglySorted key_lt (distinct_sorted l).
Proof.
  induction l as [|k l IH]; cbn; [constructor|now apply insert_key_sorted].
Qed.

Lemma key_lt_irrefl (a : option string) : ~ key_lt a a.
Proof.
  unfold key_lt. intros H.
  assert (E : key_compare a a = Eq) by now apply key_compare_eq.
  congruence.
Qed.

(** A list in strictly ascending key order has no duplicates. *)
Lemma strictly_sorted_NoDup (l : list (option string)) :
  StronglySorted key_lt l -> NoDup l.
Proof.
  induction 1 as [|h t Hs IH Hall]; constructor; [|exact IH].
  intros Hin. rewrite Forall_forall in Hall.
  exact (key_lt_irrefl h (Hall h Hin)).
Qed.


Lemma sql_group_by_groups (key : Row -> option string) (rows : list Row) :
  Forall (fun g => snd g = filter (fun r => key_eqb (key r) (fst g)) rows /\
                   snd g <> [])
         (sql_group_by key rows).
Proof.
  unfold sql_group_by. apply Forall_forall. intros g Hg.
  apply in_map_iff in Hg. destruct Hg as (k & <- & Hk). cbn [fst snd].
  split; [reflexivity|].
  apply distinct_sorted_In, in_map_iff in Hk. destruct Hk as (r & Hr & Hin).
  intros Hempty.
  assert (Hf : In r (filter (fun r0 => key_eqb (key r0) k) rows)).
  { apply filter_In. split; [exact Hin|]. now apply key_eqb_eq. }
  rewrite Hempty in Hf. exact Hf.
Qed.

End KeyProofs.

(* ================================================================== *)
(** * getTrends *)
(* ================================================================== *)

Section TrendProofs.
Context `{P : Platform}.

Lemma getTrends_run (days : Z) (w : World) :
  getTrends days w =
  (Ok (map trend_entry (sql_group_by day_of (window_of w days))), w).
Proof. reflexivity. Qed.




Lemma sql_AVG_nonempty (l : list Q) :
  l <> [] -> exists a, sql_AVG l = Some a.
Proof. destruct l; [contradiction|]. intros _. eexists. reflexivity. Qed.

Lemma day_rows_average (g : list Row) :
  g <> [] ->
  exists a, sql_AVG (map r_score g) = Some a /\
            round1 (Number_of (sql_AVG (map r_score g))) = round1 a.
Proof.
  intros Hne.
  destruct (sql_AVG_nonempty (map r_score g)) as (a & Ha).
  { destruct g; [contradiction|discriminate]. }
  exists a. rewrite Ha. split; reflexivity.
Qed.


Lemma sentiment_partition (g : list Row) :
  List.length g =
  (count_sentiment "positive" g + count_sentiment "negative" g
   + List.length (filter other_sentiment g))%nat.
Proof.
  unfold count_sentiment, other_sentiment.
  induction g as [|r g IH]; [reflexivity|].
  cbn [filter List.length].
  destruct (r_sentiment r) as [| | |s| |]; cbn; try lia.
  destruct (s =? "positive") eqn:E1; destruct (s =? "negative") eqn:E2;
    cbn; try lia.
  apply String.eqb_eq in E1, E2. subst. discriminate E2.
Qed.

(** C10.  In every entry of [getTrends], positive + negative <= total:
    the total counts all rows of the day, the two sub-counts only the
    positive and the negative ones, and the rows with any other
    sentiment make up the difference; the average is taken over all rows
    of the day. *)
Theorem getTrends_subcounts_within_total (w : World) (days : Z) :
  exists tr,
    getTrends days w = (Ok tr, w) /\
    Forall (fun e =>
              let day := day_rows (window_of w days) (t_date e) in
              (t_positive e + t_negative e <= t_total e)%nat /\
              t_total e =
                (t_positive e + t_negative e
                 + List.length (filter other_sentiment day))%nat /\
              t_total e = List.length day /\
              exists a, sql_AVG (map r_score day) = Some a /\
                        t_avgScore e = round1 a)
           tr.
Proof.
  eexists. split; [apply getTrends_run|].
  apply Forall_map.
  eapply Forall_impl; [|apply sql_group_by_groups].
  intros g [Hg Hne]. cbn [trend_entry t_date t_total t_positive t_negative t_avgScore].
  unfold day_rows. rewrite <- Hg.
  pose proof (sentiment_partition (snd g)) as Hpart.
  split; [lia|]. split; [lia|]. split; [reflexivity|].
  now apply day_rows_average.
Qed.

End TrendProofs.
(* ================================================================== *)
(** * getRecentFeedback and generateSummary *)
(* ================================================================== *)

Section SummaryProofs.
Context `{P : Platform}.









Lemma context_line_row (r : Row) : context_line (item_of_row r) = row_line r.
Proof. reflexivity. Qed.

Lemma context_of_rows (rows : list Row) :
  context_of (map item_of_row rows) = String.concat newline (map row_line rows).
Proof.
  unfold context_of. rewrite map_map. reflexivity.
Qed.



End SummaryProofs.
(* ================================================================== *)
(** * Plain objects as maps *)
(* ================================================================== *)

Section ObjectProofs.

Lemma existsb_eqb_In (k : string) (l : list string) :
  existsb (String.eqb k) l = true <-> In k l.
Proof.
  rewrite existsb_exists. split.
  - intros (x & Hx & E). apply String.eqb_eq in E. now subst.
  - intros H. exists k. split; [exact H|apply String.eqb_refl].
Qed.

Lemma existsb_eqb_not_In (k : string) (l : list string) :
  existsb (String.eqb k) l = false <-> ~ In k l.
Proof.
  rewrite <- existsb_eqb_In. destruct (existsb (String.eqb k) l); split; congruence.
Qed.

Lemma first_seen_snoc (l : list string) (k : string) :
  first_seen (l ++ [k]) =
  if existsb (String.eqb k) (first_seen l) then first_seen l
  else first_seen l ++ [k].
Proof. unfold first_seen. rewrite fold_left_app. reflexivity. Qed.

Lemma first_seen_In (l : list string) (x : string) :
  In x (first_seen l) <-> In x l.
Proof.
  induction l as [|k l IH] using rev_ind; [reflexivity|].
  rewrite first_seen_snoc, in_app_iff. cbn [In].
  destruct (existsb (String.eqb k) (first_seen l)) eqn:E.
  - apply existsb_eqb_In in E. rewrite IH in *. intuition (subst; auto).
  - rewrite in_app_iff, IH. cbn [In]. reflexivity.
Qed.

Lemma first_seen_NoDup (l : list string) : NoDup (first_seen l).
Proof.
  induction l as [|k l IH] using rev_ind; [constructor|].
  rewrite first_seen_snoc.
  destruct (existsb (String.eqb k) (first_seen l)) eqn:E; [exact IH|].
  apply existsb_eqb_not_In in E.
  apply NoDup_app; [exact IH|repeat constructor; auto|].
  intros x Hx [<-|[]]. contradiction.
Qed.

Context {V : Type}.

Lemma assoc_map_key (f : string -> V) (k : string) (ks : list string) :
  assoc k (map (fun k' => (k', f k')) ks) =
  if existsb (String.eqb k) ks then Some (f k) else None.
Proof.
  induction ks as [|k' ks IH]; [reflexivity|].
  cbn [map assoc existsb]. rewrite (String.eqb_sym k k').
  destruct (k' =? k) eqn:E; cbn [orb]; [|exact IH].
  apply String.eqb_eq in E. now subst.
Qed.

Lemma obj_set_absent (f : string -> V) (k : string) (v : V) (ks : list string) :
  ~ In k ks ->
  obj_set k v (map (fun k' => (k', f k')) ks) =
  map (fun k' => (k', f k')) ks ++ [(k, v)].
Proof.
  induction ks as [|k' ks IH]; intros Hk; [reflexivity|].
  cbn [map obj_set app].
  destruct (k' =? k) eqn:E.
  - apply String.eqb_eq in E. subst. exfalso. apply Hk. now left.
  - rewrite IH; [reflexivity|]. intros H. apply Hk. now right.
Qed.

Lemma obj_set_present (f : string -> V) (k : string) (v : V) (ks : list string) :
  NoDup ks -> In k ks ->
  obj_set k v (map (fun k' => (k', f k')) ks) =
  map (fun k' => (k', if k' =? k then v else f k')) ks.
Proof.
  induction ks as [|k' ks IH]; intros Hnd Hk; [contradiction|].
  inversion Hnd as [|? ? Hfresh Hnd']; subst.
  cbn [map obj_set].
  destruct (k' =? k) eqn:E.
  - apply String.eqb_eq in E. subst. f_equal.
    apply map_ext_in. intros x Hx.
    destruct (x =? k) eqn:Ex; [|reflexivity].
    apply String.eqb_eq in Ex. subst. contradiction.
  - f_equal. apply IH; [exact Hnd'|].
    destruct Hk as [->|Hk]; [|exact Hk].
    rewrite String.eqb_refl in E. discriminate E.
Qed.

Lemma assoc_obj_set_same (k : string) (v : V) (o : jsobj V) :
  assoc k (obj_set k v o) = Some v.
Proof.
  induction o as [|[k' v'] o IH]; cbn.
  - now rewrite String.eqb_refl.
  - destruct (k' =? k) eqn:E; cbn; rewrite E; [reflexivity|exact IH].
Qed.

Lemma obj_set_twice (k : string) (v v' : V) (o : jsobj V) :
  obj_set k v' (obj_set k v o) = obj_set k v' o.
Proof.
  induction o as [|[k0 v0] o IH]; cbn.
  - now rewrite String.eqb_refl.
  - destruct (k0 =? k) eqn:E; cbn; rewrite E; [reflexivity|now rewrite IH].
Qed.

End ObjectProofs.

Section AccumulateProofs.
Context {I V : Type} (upd : I -> V -> V) (init : V).

Lemma tally_snoc (k : string) (events : list (string * I)) (e : string * I) :
  tally upd init k (events ++ [e]) =
  if fst e =? k then upd (snd e) (tally upd init k events)
  else tally upd init k events.
Proof. unfold tally. rewrite fold_left_app. reflexivity. Qed.

Lemma tally_absent (k : string) (events : list (string * I)) :
  ~ In k (map fst events) -> tally upd init k events = init.
Proof.
  induction events as [|e events IH] using rev_ind; intros Hk; [reflexivity|].
  rewrite tally_snoc. rewrite map_app, in_app_iff in Hk. cbn in Hk.
  destruct (fst e =? k) eqn:E.
  - apply String.eqb_eq in E. tauto.
  - apply IH. tauto.
Qed.

Lemma acc_step_counted (events : list (string * I)) (e : string * I) :
  acc_step upd init (counted upd init events) e = counted upd init (events ++ [e]).
Proof.
  unfold acc_step, counted.
  rewrite map_app. cbn [map]. rewrite first_seen_snoc, assoc_map_key.
  destruct (existsb (String.eqb (fst e)) (first_seen (map fst events))) eqn:E.
  - rewrite obj_set_present;
      [|apply first_seen_NoDup|now apply existsb_eqb_In].
    apply map_ext. intros k. rewrite tally_snoc, (String.eqb_sym k).
    destruct (fst e =? k) eqn:Ek; [|reflexivity].
    apply String.eqb_eq in Ek. now subst.
  - apply existsb_eqb_not_In in E.
    rewrite obj_set_absent by exact E.
    rewrite map_app. cbn [map]. f_equal.
    + apply map_ext_in. intros k Hk. rewrite tally_snoc.
      destruct (fst e =? k) eqn:Ek; [|reflexivity].
      apply String.eqb_eq in Ek. subst. contradiction.
    + rewrite tally_snoc, String.eqb_refl.
      rewrite tally_absent; [reflexivity|].
      intros H. apply E. now apply first_seen_In.
Qed.


Lemma counted_keys (events : list (string * I)) :
  map fst (counted upd init events) = first_seen (map fst events).
Proof. unfold counted. rewrite map_map. apply map_id. Qed.

End AccumulateProofs.
(* ================================================================== *)
(** * Theme counts and theme health *)
(* ================================================================== *)

Section ThemeProofs.
Context `{P : Platform}.

Lemma fold_left_flat_map {A B C : Type} (f : A -> C -> A) (g : B -> list C)
    (l : list B) (a : A) :
  fold_left (fun acc x => fold_left f (g x) acc) l a =
  fold_left f (flat_map g l) a.
Proof.
  revert a. induction l as [|x l IH]; intros a; [reflexivity|].
  cbn [fold_left flat_map]. rewrite fold_left_app. apply IH.
Qed.

Lemma fold_left_map {A B C : Type} (f : A -> C -> A) (g : B -> C)
    (l : list B) (a : A) :
  fold_left f (map g l) a = fold_left (fun acc x => f acc (g x)) l a.
Proof.
  revert a. induction l as [|x l IH]; intros a; [reflexivity|apply IH].
Qed.

Lemma fold_left_ext_Forall {A B : Type} (f g : A -> B -> A) (Q : B -> Prop)
    (l : list B) (a : A) :
  (forall acc x, Q x -> f acc x = g acc x) ->
  Forall Q l -> fold_left f l a = fold_left g l a.
Proof.
  intros Hfg Hall. revert a.
  induction Hall as [|x l Hx _ IH]; intros a; [reflexivity|].
  cbn [fold_left]. rewrite Hfg by exact Hx. apply IH.
Qed.







Lemma filter_partition_perm {A : Type} (p : A -> bool) (l : list A) :
  Permutation (filter p l ++ filter (fun x => negb (p x)) l) l.
Proof.
  induction l as [|x l IH]; [reflexivity|].
  cbn [filter]. destruct (p x); cbn [negb app].
  - now constructor.
  - rewrite <- Permutation_middle. now constructor.
Qed.

Lemma Object_entries_perm {V : Type} (o : jsobj V) :
  Permutation (Object_entries o) o.
Proof.
  unfold Object_entries. rewrite stable_sort_perm. apply filter_partition_perm.
Qed.

(** The enumeration order of own properties: the array-index names in
    ascending numeric order, then the other names in creation order. *)
Lemma Object_entries_order {V : Type} (o : jsobj V) :
  exists indexed,
    Object_entries o = indexed ++ filter (fun e => negb (is_index_key e)) o /\
    Permutation indexed (filter is_index_key o) /\
    StronglySorted (fun a b => (index_value a <= index_value b)%N) indexed.
Proof.
  exists (stable_sort index_before (filter is_index_key o)).
  split; [reflexivity|]. split; [apply stable_sort_perm|].
  assert (Hidx : forall e, In e (filter is_index_key o) ->
                           array_index (fst e) = Some (index_value e)).
  { intros e He. apply filter_In in He. destruct He as [_ He].
    unfold is_index_key, index_value in *.
    destruct (array_index (fst e)); [reflexivity|discriminate He]. }
  apply stable_sort_sorted.
  - intros x y Hx Hy. unfold index_before.
    rewrite (Hidx x Hx), (Hidx y Hy). intros H. apply N.ltb_ge in H. exact H.
  - intros x y Hx Hy. unfold index_before.
    rewrite (Hidx x Hx), (Hidx y Hy). intros H. apply N.ltb_lt in H. lia.
  - intros a b c. lia.
Qed.





End ThemeProofs.
Section ThemeHealthProofs.
Context `{P : Platform}.

Lemma themeTrends_flat (rows : list Row) :
  themeTrends (map item_of_row rows) = fold_left trend_step (mentions rows) [].
Proof.
  unfold themeTrends, mentions. rewrite fold_left_map.
  rewrite <- (fold_left_flat_map trend_step
                (fun r => map (fun t => (js_ToString t, r_sentiment r)) (r_themes r))).
  apply (fold_left_ext_Forall _ _ (fun _ => True)).
  - intros o r _. unfold theme_keys. cbn [item_of_row sentiment themes].
    rewrite !fold_left_map. reflexivity.
  - apply Forall_forall. auto.
Qed.

Lemma trend_step_plain (o : jsobj theme_stats) (m : string * json) :
  plain_mention m = true ->
  trend_step o m = acc_step bump theme_stats_init o m.
Proof.
  unfold plain_mention, trend_step, themeTrends_step, acc_step.
  intros Hm. apply negb_true_iff in Hm. rewrite Hm.
  destruct (assoc (fst m) o) as [d|] eqn:E.
  - rewrite E. reflexivity.
  - rewrite assoc_obj_set_same. apply obj_set_twice.
Qed.

Lemma trend_step_inherited (o : jsobj theme_stats) (m : string * json) :
  plain_mention m = false -> assoc (fst m) o = None -> trend_step o m = o.
Proof.
  unfold plain_mention, trend_step, themeTrends_step.
  intros Hm E. apply negb_false_iff in Hm. rewrite E, Hm, E. reflexivity.
Qed.

(** [themeTrends] holds one own property per distinct plain label, in
    first-seen order; mentions of inherited names leave it unchanged. *)
Lemma trend_fold (ms : list (string * json)) :
  fold_left trend_step ms [] =
  counted bump theme_stats_init (filter plain_mention ms).
Proof.
  induction ms as [|m ms IH] using rev_ind; [reflexivity|].
  rewrite fold_left_app, filter_app. cbn [fold_left filter]. rewrite IH.
  destruct (plain_mention m) eqn:Hm.
  - rewrite trend_step_plain by exact Hm. apply acc_step_counted.
  - rewrite app_nil_r. apply trend_step_inherited; [exact Hm|].
    unfold counted. rewrite assoc_map_key.
    destruct (existsb _ _) eqn:E; [|reflexivity].
    apply existsb_eqb_In, first_seen_In, in_map_iff in E.
    destruct E as (m' & Hk & Hin). apply filter_In in Hin.
    destruct Hin as [_ Hplain]. unfold plain_mention in *.
    rewrite Hk in Hplain. congruence.
Qed.

Lemma mentions_of_snoc (k : string) (ms : list (string * json)) (m : string * json) :
  mentions_of k (ms ++ [m]) =
  if fst m =? k then mentions_of k ms ++ [m] else mentions_of k ms.
Proof.
  unfold mentions_of. rewrite filter_app. cbn [filter].
  destruct (fst m =? k); [reflexivity|apply app_nil_r].
Qed.

Lemma tally_bump (k : string) (ms : list (string * json)) :
  let d := tally bump theme_stats_init k ms in
  ts_total d = List.length (mentions_of k ms) /\
  ts_positive d = List.length (filter positive_mention (mentions_of k ms)) /\
  ts_negative d = List.length (filter negative_mention (mentions_of k ms)).
Proof.
  induction ms as [|m ms IH] using rev_ind; [repeat split|].
  cbn zeta in *. rewrite tally_snoc, mentions_of_snoc.
  destruct (fst m =? k); [|exact IH].
  destruct IH as (Ht & Hp & Hn).
  rewrite !filter_app, !length_app. cbn [bump ts_total ts_positive ts_negative filter].
  unfold positive_mention at 2, negative_mention at 2.
  rewrite Ht, Hp, Hn. cbn [List.length].
  repeat split; try lia.
  - destruct (is_sentiment "positive" (snd m)); cbn [List.length]; lia.
  - destruct (is_sentiment "negative" (snd m)); cbn [List.length]; lia.
Qed.

Lemma Qnat_le (m n : nat) : (m <= n)%nat -> (Qnat m <= Qnat n)%Q.
Proof. intros H. unfold Qnat. rewrite <- Zle_Qle. lia. Qed.

Lemma Qnat_pos (n : nat) : (0 < n)%nat -> (0 < Qnat n)%Q.
Proof.
  intros H. unfold Qnat. change 0%Q with (inject_Z 0). rewrite <- Zlt_Qlt. lia.
Qed.

Lemma health_score_spec (d : theme_stats) :
  (0 < ts_total d)%nat ->
  (ts_positive d <= ts_total d)%nat -> (ts_negative d <= ts_total d)%nat ->
  health_score d =
    Math_round (fl (fl ((Qnat (ts_positive d) - Qnat (ts_negative d))
                        / Qnat (ts_total d)) * 100))%Q /\
  (-100 <= health_score d <= 100)%Z /\
  (ts_positive d = ts_negative d -> health_score d = 0%Z).
Proof.
  intros Ht Hp Hn. unfold health_score.
  replace (0 <? ts_total d)%nat with true by (symmetry; now apply Nat.ltb_lt).
  split; [reflexivity|]. split.
  - pose proof (Qnat_pos _ Ht) as Hc.
    pose proof (Qnat_le _ _ Hp) as Ha. pose proof (Qnat_le _ _ Hn) as Hb.
    pose proof (Qnat_le 0 _ (Nat.le_0_l (ts_positive d))) as Ha0.
    pose proof (Qnat_le 0 _ (Nat.le_0_l (ts_negative d))) as Hb0.
    change (Qnat 0) with 0%Q in *.
    set (r := ((Qnat (ts_positive d) - Qnat (ts_negative d))
               / Qnat (ts_total d))%Q).
    assert (H1 : (r <= 1)%Q) by (apply Qle_shift_div_r; [exact Hc|lra]).
    assert (H2 : (-1 <= r)%Q) by (apply Qle_shift_div_l; [exact Hc|lra]).
    assert (E1 : pow2 1 = 2%Q) by reflexivity.
    assert (E53 : pow2 (1 - 54) = (1 # 9007199254740992)%Q) by reflexivity.
    assert (E7 : pow2 7 = 128%Q) by reflexivity.
    assert (E47 : pow2 (7 - 54) = (1 # 140737488355328)%Q) by reflexivity.
    destruct (fl_within 1 r) as [_ R]; [lia|rewrite E1; lra|].
    rewrite E53 in R.
    destruct (fl_within 7 (fl r * 100)) as [_ Y]; [lia|rewrite E7; lra|].
    rewrite E47 in Y.
    destruct (Math_round_bounds (fl (fl r * 100))) as [K1 K2].
    set (k := Math_round (fl (fl r * 100))) in *.
    assert (L : (inject_Z (-101) < inject_Z k)%Q)
      by (change (inject_Z (-101)) with (-101)%Q; lra).
    assert (U : (inject_Z k < inject_Z 101)%Q)
      by (change (inject_Z 101) with 101%Q; lra).
    rewrite <- Zlt_Qlt in L, U. lia.
  - intros E. rewrite E.
    assert (H : ((Qnat (ts_negative d) - Qnat (ts_negative d))
                 / Qnat (ts_total d) == 0)%Q).
    { unfold Qminus. rewrite Qplus_opp_r. unfold Qdiv.
      now rewrite Qmult_0_l. }
    rewrite (fl_zero _ H). reflexivity.
Qed.

Lemma health_sorted (l : list ThemeHealth) :
  StronglySorted total_ge (stable_sort total_before l).
Proof.
  apply stable_sort_sorted.
  - intros x y _ _. unfold total_before, total_ge. intros H.
    now apply Nat.ltb_ge in H.
  - intros x y _ _. unfold total_before, total_ge. intros H.
    apply Nat.ltb_lt in H. lia.
  - unfold total_ge. intros a b c. lia.
Qed.

(** Theme health over the 100 most recent rows, for the labels that do
    not name an inherited property: the entries are the first 10 of a
    ranking, in descending order of total, with one entry per distinct
    label; an entry's total is the number of mentions of its label, its
    sub-counts the numbers of those mentions in positive and in negative
    rows, and its score the rounded percentage of their difference,
    within [-100, 100] and 0 when the sub-counts are equal. *)
Lemma themeHealth_of_plain_labels (w : World) :
  let ms := filter plain_mention (mentions (most_recent 100 (store w))) in
  exists d ranked,
    getDashboardData w = (Ok d, w) /\
    themeHealth d = firstn 10 ranked /\
    Permutation (map th_theme ranked) (first_seen (map fst ms)) /\
    StronglySorted total_ge ranked /\
    Forall (fun e =>
              let mine := mentions_of (th_theme e) ms in
              th_total e = List.length mine /\
              th_positive e = List.length (filter positive_mention mine) /\
              th_negative e = List.length (filter negative_mention mine) /\
              (0 < th_total e)%nat /\
              th_score e =
                Math_round (fl (fl ((Qnat (th_positive e) - Qnat (th_negative e))
                                    / Qnat (th_total e)) * 100))%Q /\
              (-100 <= th_score e <= 100)%Z /\
              (th_positive e = th_negative e -> th_score e = 0%Z))
           ranked.
Proof.
  intros ms.
  destruct (getDashboardData_run w) as (d & Hrun & _ & _ & Hhealth).
  set (o := counted bump theme_stats_init ms).
  exists d, (stable_sort total_before (map health_entry (Object_entries o))).
  split; [exact Hrun|].
  split.
  { rewrite Hhealth. unfold themeHealth_of. fold (most_recent 100 (store w)).
    now rewrite themeTrends_flat, trend_fold. }
  split.
  { rewrite stable_sort_perm, map_map. cbn [health_entry th_theme].
    change (map (fun x => fst x) ?l) with (map fst l).
    rewrite Object_entries_perm. unfold o. now rewrite counted_keys. }
  split; [apply health_sorted|].
  apply Forall_forall. intros e He.
  apply stable_sort_In, in_map_iff in He. destruct He as ([k d0] & <- & He).
  apply (Permutation_in _ (Object_entries_perm o)) in He.
  unfold o, counted in He. apply in_map_iff in He.
  destruct He as (k' & [= <- <-] & Hk).
  cbn [health_entry th_theme th_total th_positive th_negative th_score fst snd].
  destruct (tally_bump k' ms) as (Ht & Hp & Hn).
  assert (Hpos : (0 < ts_total (tally bump theme_stats_init k' ms))%nat).
  { rewrite Ht. apply first_seen_In, in_map_iff in Hk.
    destruct Hk as (m & Hm & Hin).
    assert (Hmine : In m (mentions_of k' ms)).
    { apply filter_In. split; [exact Hin|]. rewrite Hm. apply String.eqb_refl. }
    destruct (mentions_of k' ms); [contradiction|cbn; lia]. }
  assert (Hple : (ts_positive (tally bump theme_stats_init k' ms)
                  <= ts_total (tally bump theme_stats_init k' ms))%nat)
    by (rewrite Hp, Ht; apply filter_length_le).
  assert (Hnle : (ts_negative (tally bump theme_stats_init k' ms)
                  <= ts_total (tally bump theme_stats_init k' ms))%nat)
    by (rewrite Hn, Ht; apply filter_length_le).
  destruct (health_score_spec _ Hpos Hple Hnle) as (Hs & Hr & Hz).
  repeat split; try assumption; try apply Hr.
Qed.

End ThemeHealthProofs.
(* ================================================================== *)
(** * The regular expression of the classifier adapter *)
(* ================================================================== *)

Section BraceProofs.

Lemma from_first_open_spec (text rest : string) :
  from_first_open text = Some rest <->
  exists pre, text = (pre ++ String "{" rest)%string /\ occurs "{" pre = false.
Proof.
  revert rest. induction text as [|c text IH]; intros rest; cbn [from_first_open].
  - split; [discriminate|]. intros (pre & H & _). destruct pre; discriminate H.
  - destruct (Ascii.eqb c "{") eqn:E.
    + apply Ascii.eqb_eq in E. subst c. split.
      * intros [= <-]. exists EmptyString. auto.
      * intros (pre & H & Hpre). destruct pre as [|c pre]; cbn in H.
        -- now injection H as ->.
        -- injection H as <- _. cbn in Hpre. discriminate Hpre.
    + rewrite IH. split.
      * intros (pre & -> & Hpre). exists (String c pre). cbn. now rewrite E.
      * intros (pre & H & Hpre). destruct pre as [|c' pre]; cbn in H.
        -- injection H as -> _. rewrite Ascii.eqb_refl in E. discriminate E.
        -- injection H as <- ->. cbn in Hpre. apply orb_false_iff in Hpre.
           exists pre. tauto.
Qed.

Lemma occurs_middle (c : ascii) (a b : string) :
  occurs c (a ++ String c b)%string = true.
Proof.
  induction a as [|x a IH]; cbn.
  - now rewrite Ascii.eqb_refl.
  - rewrite IH. apply orb_true_r.
Qed.

Lemma upto_last_close_None (s : string) :
  upto_last_close s = None <-> occurs "}" s = false.
Proof.
  induction s as [|c s IH]; cbn; [tauto|].
  destruct (upto_last_close s) as [p|].
  - split; [discriminate|]. intros H. apply orb_false_iff in H.
    destruct H as [_ H]. apply IH in H. discriminate H.
  - destruct (Ascii.eqb c "}"); cbn; [split; discriminate|]. tauto.
Qed.

Lemma upto_last_close_spec (s p : string) :
  upto_last_close s = Some p <->
  exists body post,
    s = (body ++ String "}" post)%string /\
    p = (body ++ String "}" EmptyString)%string /\ occurs "}" post = false.
Proof.
  revert p. induction s as [|c s IH]; intros p; cbn [upto_last_close].
  - split; [discriminate|]. intros (body & post & H & _). destruct body; discriminate H.
  - destruct (upto_last_close s) as [p'|] eqn:E.
    + split.
      * intros [= <-]. destruct (proj1 (IH p') eq_refl) as (body & post & -> & -> & Hpost).
        exists (String c body), post. auto.
      * intros (body & post & H & -> & Hpost).
        destruct body as [|c' body]; cbn in H.
        -- injection H as -> ->. apply upto_last_close_None in Hpost. congruence.
        -- injection H as <- ->. cbn. f_equal. f_equal.
           assert (H : Some p' = Some (body ++ String "}" EmptyString)%string)
             by (apply IH; eauto).
           now injection H.
    + pose proof (proj1 (upto_last_close_None s) E) as Hs.
      destruct (Ascii.eqb c "}") eqn:Ec.
      * apply Ascii.eqb_eq in Ec. subst c. split.
        -- intros [= <-]. exists EmptyString, s. auto.
        -- intros (body & post & H & -> & Hpost).
           destruct body as [|c' body]; cbn in H; [reflexivity|].
           injection H as <- ->. rewrite occurs_middle in Hs. discriminate Hs.
      * split; [discriminate|]. intros (body & post & H & -> & Hpost).
        destruct body as [|c' body]; cbn in H.
        -- injection H as -> _. rewrite Ascii.eqb_refl in Ec. discriminate Ec.
        -- injection H as <- ->. rewrite occurs_middle in Hs. discriminate Hs.
Qed.

(** X1.  The pattern [/\{[\s\S]*\}/] matches exactly when the text holds
    an opening brace with a closing brace somewhere after it, and the
    match then runs from the first opening brace of the text to its last
    closing brace. *)
Theorem match_braces_first_to_last (text m : string) :
  match_braces text = Some m <->
  exists pre body post,
    text = (pre ++ String "{" body ++ String "}" post)%string /\
    m = (String "{" body ++ String "}" EmptyString)%string /\
    occurs "{" pre = false /\ occurs "}" post = false.
Proof.
  unfold match_braces. split.
  - destruct (from_first_open text) as [rest|] eqn:E1; [|discriminate].
    destruct (upto_last_close rest) as [p|] eqn:E2; [|discriminate].
    intros [= <-].
    apply from_first_open_spec in E1. destruct E1 as (pre & -> & Hpre).
    apply upto_last_close_spec in E2. destruct E2 as (body & post & -> & -> & Hpost).
    exists pre, body, post. auto.
  - intros (pre & body & post & -> & -> & Hpre & Hpost).
    assert (E1 : from_first_open (pre ++ String "{" body ++ String "}" post)%string
                 = Some (body ++ String "}" post)%string).
    { apply from_first_open_spec. exists pre. auto. }
    rewrite E1.
    assert (E2 : upto_last_close (body ++ String "}" post)%string
                 = Some (body ++ String "}" EmptyString)%string).
    { apply upto_last_close_spec. exists body, post. auto. }
    rewrite E2. reflexivity.
Qed.

End BraceProofs.
(* ================================================================== *)
(** * The table over time *)
(* ================================================================== *)

Section RespectsProofs.
Context (R : World -> World -> Prop).
Context (R_refl : forall w, R w w).
Context (R_trans : forall a b c, R a b -> R b c -> R a c).

Lemma respects_ret {A : Type} (a : A) : respects R (ret a).
Proof. intros w. apply R_refl. Qed.

Lemma respects_throw {A : Type} (e : exn) : respects R (@throw A e).
Proof. intros w. apply R_refl. Qed.

Lemma respects_gets {A : Type} (f : World -> A) : respects R (gets f).
Proof. intros w. apply R_refl. Qed.

Lemma respects_bind {A B : Type} (m : M A) (k : A -> M B) :
  respects R m -> (forall a, respects R (k a)) -> respects R (bind m k).
Proof.
  intros Hm Hk w. unfold bind. specialize (Hm w).
  destruct (m w) as [[a|e] w1]; cbn [snd] in *; [|exact Hm].
  eapply R_trans; [exact Hm|apply Hk].
Qed.

Lemma respects_try_catch {A : Type} (body : M A) (handler : exn -> M A) :
  respects R body -> (forall e, respects R (handler e)) ->
  respects R (try_catch body handler).
Proof.
  intros Hb Hh w. unfold try_catch. specialize (Hb w).
  destruct (body w) as [[a|e] w1]; cbn [snd] in *; [exact Hb|].
  eapply R_trans; [exact Hb|apply Hh].
Qed.

End RespectsProofs.

Section StoreProofs.
Context `{P : Platform}.

Lemma same_store_refl (w : World) : same_store w w.
Proof. reflexivity. Qed.

Lemma same_store_trans (a b c : World) :
  same_store a b -> same_store b c -> same_store a c.
Proof. unfold same_store. congruence. Qed.

Lemma grown_store_refl (w : World) : grown_store w w.
Proof. exists []. rewrite app_nil_r. auto. Qed.

Lemma grown_store_trans (a b c : World) :
  grown_store a b -> grown_store b c -> grown_store a c.
Proof.
  intros (r1 & H1 & F1 & N1) (r2 & H2 & F2 & N2).
  exists (r1 ++ r2).
  split; [rewrite H2, H1; symmetry; apply app_assoc|].
  split; [now apply Forall_app|]. auto.
Qed.

Lemma same_store_grown (w w' : World) : same_store w w' -> grown_store w w'.
Proof.
  unfold same_store. intros H. exists []. rewrite app_nil_r, H. auto.
Qed.

Lemma respects_same_grown {A : Type} (m : M A) :
  respects same_store m -> respects grown_store m.
Proof. intros H w. apply same_store_grown, H. Qed.

Ltac same_ret := apply (respects_ret same_store same_store_refl).
Ltac same_throw := apply (respects_throw same_store same_store_refl).
Ltac same_bind := apply (respects_bind same_store same_store_trans).
Ltac grown_ret := apply (respects_ret grown_store grown_store_refl).
Ltac grown_bind := apply (respects_bind grown_store grown_store_trans).

Lemma AI_call_same_store (req : ai_request) : respects same_store (AI_call req).
Proof.
  intros w. unfold AI_call. destruct (AI_run (ai_log w) req); reflexivity.
Qed.

Lemma crypto_randomUUID_same_store : respects same_store crypto_randomUUID.
Proof. intros w. reflexivity. Qed.

Lemma classify_same_store (item : RawItem) : respects same_store (classify item).
Proof. intros w. rewrite classify_run. reflexivity. Qed.

Lemma has_id_true_false (i : string) (rows : list Row) :
  has_id i rows = false -> ~ In i (map r_id rows).
Proof.
  unfold has_id. intros H Hin. apply in_map_iff in Hin.
  destruct Hin as (r & <- & Hr).
  assert (Ht : existsb (fun r0 => r_id r0 =? r_id r) rows = true).
  { apply existsb_exists. exists r. split; [exact Hr|apply String.eqb_refl]. }
  congruence.
Qed.

(** [INSERT] either raises and leaves the table alone, or appends one
    row whose identifier was not in the table. *)
Lemma sql_insert_grown (i : string) (src cnt ts : option string)
    (sent : json) (sc : Q) (th : list json) (meta : json) :
  truthy sent = true ->
  respects grown_store (sql_insert i src cnt ts sent sc th meta).
Proof.
  intros Hsent w. unfold sql_insert.
  destruct (ToString_raises sent); [apply grown_store_refl|].
  destruct src as [s|]; [|apply grown_store_refl].
  destruct cnt as [c|]; [|apply grown_store_refl].
  destruct ts as [t|]; [|apply grown_store_refl].
  destruct (has_id i (store w)) eqn:E; [apply grown_store_refl|].
  cbn [snd]. eexists. cbn [store]. split; [reflexivity|].
  split.
  { repeat constructor. cbn [r_sentiment].
    apply stored_text_is_text. now apply truthy_not_null. }
  intros Hnd. rewrite map_app. cbn [map r_id].
  apply NoDup_app; [exact Hnd|repeat constructor; auto|].
  intros x Hx [<-|[]]. exact (has_id_true_false _ _ E Hx).
Qed.

Lemma ingest_loop_grown (items : list RawItem) (acc : list FeedbackItem) :
  respects grown_store (ingest_loop items acc).
Proof.
  revert acc. induction items as [|item rest IH]; intros acc; cbn [ingest_loop].
  - grown_ret.
  - grown_bind.
    { apply respects_same_grown, crypto_randomUUID_same_store. }
    intros i w. unfold bind at 1. rewrite classify_run. cbn [snd].
    match goal with
    | |- grown_store _ (snd (bind ?m ?k ?w1)) =>
        pose proof (respects_bind grown_store grown_store_trans m k
                      (sql_insert_grown _ _ _ _ _ _ _ _ (judge_sentiment_truthy _))
                      (fun _ => IH _) w1) as H
    end.
    exact H.
Qed.

Lemma getRecentFeedback_same_store (limit : Z) :
  respects same_store (getRecentFeedback limit).
Proof. intros w. reflexivity. Qed.

Lemma getDashboardData_same_store : respects same_store getDashboardData.
Proof.
  intros w. destruct (getDashboardData_run w) as (d & -> & _). reflexivity.
Qed.

Lemma getTrends_same_store (days : Z) : respects same_store (getTrends days).
Proof. intros w. reflexivity. Qed.

Lemma askAboutFeedback_same_store (question : string) :
  respects same_store (askAboutFeedback question).
Proof.
  unfold askAboutFeedback.
  same_bind; [apply getRecentFeedback_same_store|].
  intros feedback. same_bind; [apply AI_call_same_store|].
  intros r. same_ret.
Qed.

Lemma generateSummary_same_store (days : Z) :
  respects same_store (generateSummary days).
Proof.
  unfold generateSummary.
  same_bind; [apply getRecentFeedback_same_store|].
  intros feedback. same_bind; [apply (respects_gets same_store same_store_refl)|].
  intros now. same_bind.
  { unfold Date_toISOString. destruct (toISOString _); [same_ret|same_throw]. }
  intros cutoff.
  destruct (List.length (filter (not_before cutoff) feedback) =? 0)%nat.
  - same_ret.
  - same_bind; [apply AI_call_same_store|]. intros r. same_ret.
Qed.

Lemma fetch_handler_same_store (request : Request) :
  is_ingest request = false -> respects same_store (fetch request).
Proof.
  intros Hreq. unfold fetch.
  apply (respects_try_catch same_store same_store_trans); [|intros e; same_ret].
  destruct request as [[fb|]| | | | | |]; try discriminate Hreq.
  - same_throw.
  - same_bind; [apply getDashboardData_same_store|intros; same_ret].
  - same_bind; [apply getRecentFeedback_same_store|intros; same_ret].
  - same_bind; [apply askAboutFeedback_same_store|intros; same_ret].
  - same_bind; [apply generateSummary_same_store|intros; same_ret].
  - same_bind; [apply getTrends_same_store|intros; same_ret].
  - same_ret.
Qed.

Lemma fetch_grown_store (request : Request) : respects grown_store (fetch request).
Proof.
  destruct (is_ingest request) eqn:E.
  - destruct request as [[fb|]| | | | | |]; try discriminate E.
    unfold fetch.
    apply (respects_try_catch grown_store grown_store_trans);
      [|intros e; grown_ret].
    grown_bind; [|intros; grown_ret].
    apply ingest_loop_grown.
  - apply respects_same_grown, fetch_handler_same_store, E.
Qed.

(** X2.  No request ever removes or changes a stored row: whatever the
    request and however it ends, the table afterwards is the table
    before followed by new rows, and there are new rows only for
    [POST /ingest]. *)
Theorem fetch_only_appends (request : Request) (w : World) :
  exists rows,
    store (snd (fetch request w)) = store w ++ rows /\
    (is_ingest request = false -> rows = []).
Proof.
  destruct (is_ingest request) eqn:E.
  - destruct (fetch_grown_store request w) as (rows & H & _).
    exists rows. split; [exact H|discriminate].
  - exists []. rewrite app_nil_r. split; [|reflexivity].
    apply (fetch_handler_same_store request E).
Qed.

(** X3.  In every state reachable from a fresh database, whatever the
    requests, the model's answers and the identifiers drawn, no two rows
    share an identifier and every row has a sentiment, which is a text:
    column [sentiment] is never NULL. *)
Theorem reachable_store_invariant (w : World) :
  reachable w ->
  NoDup (map r_id (store w)) /\
  Forall (fun r => exists s, r_sentiment r = JStr s) (store w).
Proof.
  induction 1 as [now|w request _ [IHn IHf]|w now _ IH]; cbn [store].
  - split; constructor.
  - destruct (fetch_grown_store request w) as (rows & Hrows & HF & Hnd).
    split; [auto|]. rewrite Hrows. apply Forall_app. split; assumption.
  - exact IH.
Qed.

End StoreProofs.
(* ================================================================== *)
(** * Reading the table: recency, counts and groups *)
(* ================================================================== *)

Section ReadingProofs.
Context `{P : Platform}.



Lemma getDashboardData_fields (w : World) :
  exists d,
    getDashboardData w = (Ok d, w) /\
    totalFeedback d =
      (count_sentiment "positive" (store w) + count_sentiment "neutral" (store w)
       + count_sentiment "negative" (store w))%nat /\
    sentimentCounts d =
      {| positive := count_sentiment "positive" (store w);
         neutral := count_sentiment "neutral" (store w);
         negative := count_sentiment "negative" (store w) |} /\
    sentimentTrend d =
      map trend_point (sql_group_by day_of (window_of w 30)) /\
    sourceBreakdown d =
      map (fun g => (fst g, List.length (snd g)))
          (sql_group_by (fun r => Some (r_source r)) (store w)) /\
    recentFeedback d =
      firstn 10 (map item_of_row (most_recent 100 (store w))).
Proof.
  eexists. split.
  - unfold getDashboardData, getRecentFeedback, bind, gets, ret. reflexivity.
  - cbn [totalFeedback sentimentCounts sentimentTrend sourceBreakdown
         recentFeedback positive neutral negative].
    repeat split.
Qed.


(** Groups partition the rows: over any duplicate-free list of keys that
    covers the keys of the rows, the group sizes add up to the number of
    rows. *)
Lemma group_sizes_sum (key : Row -> option string) (ks : list (option string))
    (rows : list Row) :
  NoDup ks -> (forall r, In r rows -> In (key r) ks) ->
  list_sum (map (fun k => List.length (filter (fun r => key_eqb (key r) k) rows)) ks)
  = List.length rows.
Proof.
  intros Hnd. induction rows as [|r rows IH]; intros Hcover.
  - clear. induction ks as [|k ks IHk]; [reflexivity|exact IHk].
  - cbn [filter List.length]. rewrite <- IH by (intros; apply Hcover; now right).
    assert (Hin : In (key r) ks) by (apply Hcover; now left).
    clear IH Hcover. unfold list_sum.
    induction ks as [|k ks IHk]; [contradiction|].
    inversion Hnd as [|? ? Hk Hnd']; subst. cbn [map fold_right].
    destruct (key_eqb (key r) k) eqn:E.
    + apply key_eqb_eq in E. subst k. cbn [List.length].
      assert (Hrest : map (fun k => List.length
                        (if key_eqb (key r) k
                         then r :: filter (fun r0 => key_eqb (key r0) k) rows
                         else filter (fun r0 => key_eqb (key r0) k) rows)) ks
                      = map (fun k => List.length
                               (filter (fun r0 => key_eqb (key r0) k) rows)) ks).
      { apply map_ext_in. intros k Hk'. destruct (key_eqb (key r) k) eqn:E'; [|reflexivity].
        apply key_eqb_eq in E'. subst. contradiction. }
      rewrite Hrest. lia.
    + destruct Hin as [->|Hin].
      { assert (E' : key_eqb (key r) (key r) = true) by now apply key_eqb_eq.
        congruence. }
      rewrite (IHk Hnd' Hin). lia.
Qed.

Lemma sql_group_by_sizes (key : Row -> option string) (rows : list Row) :
  list_sum (map (fun g => List.length (snd g)) (sql_group_by key rows))
  = List.length rows.
Proof.
  unfold sql_group_by. rewrite map_map. cbn [snd].
  apply group_sizes_sum.
  - apply strictly_sorted_NoDup, distinct_sorted_sorted.
  - intros r Hr. apply distinct_sorted_In, in_map. exact Hr.
Qed.


Lemma filter_filter_comm {A : Type} (p q : A -> bool) (l : list A) :
  filter p (filter q l) = filter q (filter p l).
Proof.
  induction l as [|x l IH]; [reflexivity|]. cbn [filter].
  destruct (p x) eqn:Ep; destruct (q x) eqn:Eq; cbn [filter];
    rewrite ?Ep, ?Eq, IH; reflexivity.
Qed.

Lemma sql_group_by_counts (label : string) (key : Row -> option string)
    (rows : list Row) :
  list_sum (map (fun g => count_sentiment label (snd g)) (sql_group_by key rows))
  = count_sentiment label rows.
Proof.
  unfold sql_group_by, count_sentiment. rewrite map_map. cbn [snd].
  set (p := fun r : Row => is_sentiment label (r_sentiment r)).
  rewrite <- (group_sizes_sum key (distinct_sorted (map key rows)) (filter p rows)).
  - f_equal. apply map_ext. intros k. now rewrite filter_filter_comm.
  - apply strictly_sorted_NoDup, distinct_sorted_sorted.
  - intros r Hr. apply filter_In in Hr. destruct Hr as [Hr _].
    apply distinct_sorted_In, in_map. exact Hr.
Qed.

(** X7.  The entries of [getTrends] partition the window: their totals
    add up to the number of rows in the window, and their positive and
    negative sub-counts to the numbers of positive and negative rows in
    it, so no row of the window is counted twice or left out. *)
Theorem getTrends_partitions_window (w : World) (days : Z) :
  exists tr,
    getTrends days w = (Ok tr, w) /\
    list_sum (map t_total tr) = List.length (window_of w days) /\
    list_sum (map t_positive tr) = count_sentiment "positive" (window_of w days) /\
    list_sum (map t_negative tr) = count_sentiment "negative" (window_of w days).
Proof.
  eexists. split; [apply getTrends_run|].
  rewrite !map_map. cbn [trend_entry t_total t_positive t_negative].
  split; [apply sql_group_by_sizes|].
  split; apply sql_group_by_counts.
Qed.


(** X9.  On an empty table the dashboard is empty whatever the clock: no
    feedback, an average of 0 and no themes, trend points, sources or
    recent items. *)
Theorem getDashboardData_empty_table (w : World) :
  store w = [] ->
  exists d,
    getDashboardData w = (Ok d, w) /\
    totalFeedback d = 0%nat /\
    sentimentCounts d = {| positive := 0; neutral := 0; negative := 0 |} /\
    averageScore d = Finite 0 /\
    topThemes d = [] /\ sentimentTrend d = [] /\ themeHealth d = [] /\
    sourceBreakdown d = [] /\ recentFeedback d = [].
Proof.
  intros Hempty.
  destruct (getDashboardData_fields w) as (d & Hrun & Htot & Hcnt & Htrend & Hsrc & Hrec).
  destruct (getDashboardData_run w) as (d' & Hrun' & Havg & Htop & Hhealth).
  assert (d' = d) by congruence. subst d'.
  exists d. split; [exact Hrun|].
  rewrite Htot, Hcnt, Havg, Htop, Hhealth, Htrend, Hsrc, Hrec.
  unfold window_of, most_recent. rewrite Hempty.
  assert (Hwin : sql_window (sql_DATE_now_minus (clock w) 30) [] = []).
  { unfold sql_window. now destruct (sql_DATE_now_minus _ _). }
  rewrite Hwin. repeat split; reflexivity.
Qed.


End ReadingProofs.
(* ================================================================== *)
(** * Asking, answering and reading back *)
(* ================================================================== *)

Section AnswerProofs.
Context `{P : Platform}.

Lemma askAboutFeedback_run (question : string) (w : World) :
  let req := ask_request question (most_recent 30 (store w)) in
  askAboutFeedback question w =
  (match AI_run (ai_log w) req with
   | AiThrows => Throw AIError
   | AiResponse r => Ok (response_or r "Unable to generate response")
   end,
   log_call req w).
Proof.
  cbn zeta. unfold askAboutFeedback. unfold bind at 1.
  rewrite getRecentFeedback_run. unfold bind, AI_call, log_call, ask_request.
  change (sql_limit 30 (stable_sort newer (store w)))
    with (most_recent 30 (store w)).
  rewrite context_of_rows.
  destruct (AI_run _ _); reflexivity.
Qed.

(** X10.  [askAboutFeedback] always makes exactly one AI call, also on an
    empty table, and never touches the table.  The call is
    [ask_request]: one line [[sentiment, score:S] (source): content] for
    each of the 30 most recent rows, followed by the question.  The
    answer is the model's text, the fixed text "Unable to generate
    response" when the model returns no text or an empty one, and an
    exception when the call fails. *)
Theorem askAboutFeedback_one_call (question : string) (w : World) :
  let req := ask_request question (most_recent 30 (store w)) in
  exists result w',
    askAboutFeedback question w = (result, w') /\
    ai_log w' = ai_log w ++ [req] /\ store w' = store w /\
    (AI_run (ai_log w) req = AiThrows -> result = Throw AIError) /\
    (forall text, AI_run (ai_log w) req = AiResponse (Some text) ->
                  text <> EmptyString -> result = Ok text) /\
    (AI_run (ai_log w) req = AiResponse None \/
     AI_run (ai_log w) req = AiResponse (Some EmptyString) ->
     result = Ok "Unable to generate response").
Proof.
  intros req.
  pose proof (askAboutFeedback_run question w) as Hrun. cbn zeta in Hrun.
  fold req in Hrun.
  eexists. eexists. split; [exact Hrun|].
  split; [reflexivity|]. split; [reflexivity|].
  split; [|split].
  - intros ->. reflexivity.
  - intros text -> Hne. cbn [response_or].
    apply String.eqb_neq in Hne. now rewrite Hne.
  - intros [-> | ->]; reflexivity.
Qed.

Lemma try_catch_answers {A : Type} (body : M A) (h : exn -> A) (w : World) :
  exists a w', try_catch body (fun e => ret (h e)) w = (Ok a, w').
Proof.
  unfold try_catch, ret. destruct (body w) as [[a|e] w']; eauto.
Qed.

(** X11.  [fetch] never lets an exception escape: every request is
    answered.  In particular a failing model turns [POST /ask] into the
    server-error answer, and a window whose cut-off instant is no valid
    date turns [GET /summary] into one before any AI call is made. *)
Theorem fetch_always_answers (request : Request) (w : World) :
  (exists response w', fetch request w = (Ok response, w')) /\
  (forall question,
      request = POST_ask question ->
      AI_run (ai_log w) (ask_request question (most_recent 30 (store w)))
        = AiThrows ->
      fst (fetch request w) = Ok (ServerError AIError)) /\
  (forall days,
      request = GET_summary days ->
      toISOString (clock w - days * 24 * 60 * 60 * 1000) = None ->
      fetch request w = (Ok (ServerError RangeError), w)).
Proof.
  split; [|split].
  - unfold fetch. apply try_catch_answers.
  - intros question -> Hfail. unfold fetch, try_catch. unfold bind at 1.
    pose proof (askAboutFeedback_run question w) as Hrun. cbn zeta in Hrun.
    rewrite Hrun, Hfail. reflexivity.
  - intros days -> Hnone. unfold fetch, try_catch. unfold bind at 1.
    unfold generateSummary. unfold bind at 1. rewrite getRecentFeedback_run.
    unfold bind at 1. unfold gets at 1. unfold bind at 1.
    unfold Date_toISOString. rewrite Hnone. reflexivity.
Qed.

(** X12.  A batch of well-formed items, with identifiers new to the
    table and sentiments that can be written, is answered by
    [POST /ingest] with [success] and a [processed] count equal to the
    size of the batch. *)
Theorem fetch_ingest_processed_count (w : World) (items : list RawItem) :
  Forall well_formed items ->
  fresh_ids w (List.length items) ->
  sentiments_convert w items ->
  exists w',
    fetch (POST_ingest (Some items)) w = (Ok (IngestJson (List.length items)), w') /\
    List.length (store w') = (List.length (store w) + List.length items)%nat.
Proof.
  intros Hwf Hfresh Hconv.
  destruct (ingest_loop_ok items [] w Hwf Hfresh Hconv)
    as (out & w' & rows & Hrun & Hcl & Hst & Hstore & _).
  exists w'. unfold fetch, try_catch. unfold bind at 1. unfold ingestFeedback.
  rewrite Hrun. cbn [app ret].
  rewrite <- (Forall2_length Hcl). split; [reflexivity|].
  rewrite Hstore, length_app, <- (Forall2_length Hst), <- (Forall2_length Hcl).
  reflexivity.
Qed.




End AnswerProofs.

(* ================================================================== *)
(** * Top themes and theme health side by side *)
(* ================================================================== *)

Section AgreementProofs.
Context `{P : Platform}.








End AgreementProofs.
(* ================================================================== *)
(** * The worker in front of the agent *)
(* ================================================================== *)

Section WorkerProofs.

Lemma prefix_append (a b : string) : String.prefix a (a ++ b)%string = true.
Proof.
  induction a as [|c a IH]; cbn.
  - now destruct b.
  - destruct (ascii_dec c c) as [_|Hne]; [exact IH|contradiction].
Qed.

Lemma string_drop_append (a b : string) :
  string_drop (String.length a) (a ++ b)%string = b.
Proof. induction a as [|c a IH]; [reflexivity|exact IH]. Qed.

(** Replacing a prefix removes that occurrence and no other. *)
Lemma js_replace_prefix (pat rep rest : string) :
  js_replace pat rep (pat ++ rest)%string = (rep ++ rest)%string.
Proof.
  destruct (pat ++ rest)%string as [|c s] eqn:E; cbn [js_replace];
    rewrite <- E, prefix_append, string_drop_append; reflexivity.
Qed.

(** X16.  The worker serves the page itself for exactly the paths [/]
    and [/dashboard]; every path that begins with [/api] is handed to
    the agent with that leading [/api] removed and nothing else changed,
    also when [/api] occurs again later in the path; every other path is
    answered with 404. *)
Theorem worker_route_cases (pathname : string) :
  (worker_route pathname = ServeDashboardHTML <->
   pathname = "/" \/ pathname = "/dashboard") /\
  (forall rest, pathname = ("/api" ++ rest)%string ->
                worker_route pathname = ForwardToAgent rest) /\
  (worker_route pathname = WorkerNotFound <->
   pathname <> "/" /\ pathname <> "/dashboard" /\
   String.prefix "/api" pathname = false).
Proof.
  unfold worker_route. split; [|split].
  - destruct (String.eqb_spec pathname "/") as [->|N1];
      [split; [now left|reflexivity]|].
    destruct (String.eqb_spec pathname "/dashboard") as [->|N2];
      [split; [now right|reflexivity]|].
    cbn [orb]. split; [|intros [H|H]; contradiction].
    destruct (String.prefix "/api" pathname); discriminate.
  - intros rest ->.
    assert (E1 : ("/api" ++ rest =? "/") = false) by reflexivity.
    assert (E2 : ("/api" ++ rest =? "/dashboard") = false) by reflexivity.
    rewrite E1, E2. cbn [orb].
    now rewrite prefix_append, js_replace_prefix.
  - destruct (String.eqb_spec pathname "/") as [->|N1];
      [split; [discriminate|intros (H & _); contradiction]|].
    destruct (String.eqb_spec pathname "/dashboard") as [->|N2];
      [split; [discriminate|intros (_ & H & _); contradiction]|].
    cbn [orb]. destruct (String.prefix "/api" pathname).
    + split; [discriminate|]. intros (_ & _ & H). discriminate H.
    + split; auto.
Qed.

End WorkerProofs.
(* ================================================================== *)
(** * The AI calls of a request *)
(* ================================================================== *)

Section CallProofs.
Context `{P : Platform}.





End CallProofs.

(* ================================================================== *)
(** * The properties on concrete data *)
(* ================================================================== *)

#[local] Existing Instance Demo.platform.


(** C1.  Both items of the batch below are well-formed.  The model
    answers the first with a sentiment that is an object holding a
    property [toString]; the [INSERT] of that item raises a TypeError
    outside the [try] block, [ingestFeedback] ends with it and the
    request is answered with the server error: no item is returned, no
    row is written, and the second item is never classified. *)
Theorem ingest_raises_on_sentiment_without_ToString :
  let items := [ Demo.raw "web" "Works as described" "2026-01-30T09:00:00Z";
                 Demo.raw "email" "Great support team" "2026-01-30T10:15:00Z" ] in
  Forall well_formed items /\
  fresh_ids Demo.empty_world (List.length items) /\
  j_sentiment (judge (AI_run [] (classifier_request (Some "Works as described"))))
    = JObj [("toString", JStr "positive")] /\
  exists w',
    ingestFeedback items Demo.empty_world = (Throw TypeError, w') /\
    fetch (POST_ingest (Some items)) Demo.empty_world
      = (Ok (ServerError TypeError), w') /\
    store w' = [] /\
    ai_log w' = [classifier_request (Some "Works as described")].
Proof.
  intros items.
  split; [repeat constructor; do 3 eexists; repeat split; reflexivity|].
  split; [unfold fresh_ids; cbn; repeat constructor; cbn; intuition discriminate|].
  split; [reflexivity|].
  eexists. split; [vm_compute; reflexivity|].
  split; [reflexivity|]. split; reflexivity.
Qed.

(** Where every sentiment can be written, the batch is stored: two
    items, the model being unavailable for the first. *)
Example ingestFeedback_stores_batch_sample :
  let items := [ Demo.raw "app_store" "Love this app!" "2026-01-29T09:00:00Z";
                 Demo.raw "email" "Great support team" "2026-01-30T10:15:00Z" ] in
  exists out w',
    ingestFeedback items Demo.empty_world = (Ok out, w') /\
    map sentiment out = [JStr "neutral"; JStr "positive"] /\
    map r_sentiment (store w') = [JStr "neutral"; JStr "positive"] /\
    map r_id (store w') = drawn_ids Demo.empty_world 2.
Proof.
  intros items. eexists. eexists. split; [vm_compute; reflexivity|].
  repeat split; reflexivity.
Qed.

(** A sentiment that is a number is returned as the number and kept as
    the text of a REAL. *)
Example ingest_keeps_sentiment_as_text :
  exists out w',
    ingestFeedback [Demo.raw "survey" "Seven out of ten" "2026-01-30T09:00:00Z"]
                   Demo.empty_world = (Ok out, w') /\
    map sentiment out = [JNum 7] /\
    map r_sentiment (store w') = [JStr "7.0"].
Proof.
  eexists. eexists. split; [vm_compute; reflexivity|].
  split; reflexivity.
Qed.

(** An input that carries an [id] is returned with it and stored under
    the identifier drawn. *)
Example ingest_returns_own_id :
  exists out w',
    ingestFeedback
      [ {| i_id := Some (JStr "client-7"); i_source := Some "email";
           i_content := Some "Great support team";
           i_timestamp := Some "2026-01-30T10:15:00Z"; i_metadata := None |} ]
      Demo.empty_world = (Ok out, w') /\
    map id out = [JStr "client-7"] /\
    map r_id (store w') = ["00000000-0000-4000-8000-000000000000"].
Proof.
  eexists. eexists. split; [vm_compute; reflexivity|].
  split; reflexivity.
Qed.

(** C2, on concrete answers: an unavailable model, an answer without
    braces, an answer that is not JSON, an object with none of the three
    fields usable, and a batch whose first call fails: its first item is
    stored as neutral and the loop goes on with the second. *)
Lemma classification_fallback_policy_witness :
  judge (AI_run [] (classifier_request (Some "Love this app!"))) = fallback /\
  judge (AI_run [] (classifier_request (Some "No comment"))) = fallback /\
  judge (AI_run [] (classifier_request (Some "Could be faster"))) = fallback /\
  judge (AiResponse (Some Demo.doc_partial)) = fallback /\
  (exists f r w1,
     ingest_loop
       [ Demo.raw "app_store" "Love this app!" "2026-01-29T09:00:00Z";
         Demo.raw "email" "Great support team" "2026-01-30T10:15:00Z" ]
       [] Demo.empty_world =
     ingest_loop
       [ Demo.raw "email" "Great support team" "2026-01-30T10:15:00Z" ]
       [f] w1 /\
     judgment_of f = fallback /\
     r_sentiment r = JStr "neutral" /\
     store w1 = [r] /\
     ai_log w1 = [classifier_request (Some "Love this app!")]) /\
  exists out w',
    ingestFeedback
      [ Demo.raw "app_store" "Love this app!" "2026-01-29T09:00:00Z";
        Demo.raw "email" "Great support team" "2026-01-30T10:15:00Z" ]
      Demo.empty_world = (Ok out, w') /\
    Forall2 classified_from
      [ Demo.raw "app_store" "Love this app!" "2026-01-29T09:00:00Z";
        Demo.raw "email" "Great support team" "2026-01-30T10:15:00Z" ] out /\
    map judgment_of out =
      judgments_of (ai_log Demo.empty_world)
        [ Demo.raw "app_store" "Love this app!" "2026-01-29T09:00:00Z";
          Demo.raw "email" "Great support team" "2026-01-30T10:15:00Z" ] /\
    ai_log w' =
      ai_log Demo.empty_world ++
      requests_of
        [ Demo.raw "app_store" "Love this app!" "2026-01-29T09:00:00Z";
          Demo.raw "email" "Great support team" "2026-01-30T10:15:00Z" ].
Proof.
  destruct (classification_fallback_policy (P := Demo.platform))
    as (Hfail & Hfield & _ & _ & Hstep & _ & Hbatch).
  split; [|split; [|split; [|split; [|split]]]].
  - apply Hfail. change (classification_fails AiThrows). constructor.
  - apply Hfail.
    change (classification_fails (AiResponse (Some "I cannot classify this."))).
    apply no_json_found. reflexivity.
  - apply Hfail.
    change (classification_fails (AiResponse (Some Demo.doc_truncated))).
    eapply parse_fails; reflexivity.
  - destruct (Hfield (Some Demo.doc_partial) Demo.doc_partial
                [("score", JStr "high"); ("themes", JStr "billing")]
                eq_refl eq_refl) as (Hs & Hq & Ht).
    specialize (Hs eq_refl).
    assert (Hq' : j_score (judge (AiResponse (Some Demo.doc_partial))) = 5%Q)
      by (apply Hq; intros q0 H0; discriminate H0).
    assert (Ht' : j_themes (judge (AiResponse (Some Demo.doc_partial))) = [])
      by (apply Ht; intros l0 H0; discriminate H0).
    destruct (judge (AiResponse (Some Demo.doc_partial))); cbn in *.
    now subst.
  - destruct (Hstep (Demo.raw "app_store" "Love this app!" "2026-01-29T09:00:00Z")
                [Demo.raw "email" "Great support team" "2026-01-30T10:15:00Z"]
                [] Demo.empty_world)
      as (f & r & w1 & Hrun & _ & Hj & _ & Hr & Hstore & Hlog).
    + do 3 eexists; repeat split; reflexivity.
    + cbn. intros [].
    + change (classification_fails AiThrows). constructor.
    + exists f, r, w1. repeat split; assumption.
  - apply Hbatch.
    + repeat constructor; do 3 eexists; repeat split; reflexivity.
    + unfold fresh_ids. cbn.
      repeat constructor; cbn; intuition discriminate.
    + unfold sentiments_convert. vm_compute. repeat constructor.
Defined.

(** C3.  The model answers one feedback text with the sentiment "mixed";
    ingestion stores that text as the row's sentiment, outside the three
    labels. *)
Theorem ingest_stores_unlisted_sentiment :
  exists out w',
    ingestFeedback [Demo.raw "email" "It is okay, I guess" "2026-01-30T09:00:00Z"]
                   Demo.empty_world = (Ok out, w') /\
    map r_sentiment (store w') = [JStr "mixed"] /\
    map sentiment out = [JStr "mixed"] /\
    ~ In (JStr "mixed") sentiment_labels.
Proof.
  eexists. eexists. split; [vm_compute; reflexivity|].
  split; [reflexivity|]. split; [reflexivity|].
  cbn. intuition discriminate.
Qed.

(** C9, the claim refuted on a batch of three whose second item lacks
    [source]: the request fails, the first item stays stored, and the
    third item, although well-formed, is neither classified nor
    stored. *)
Lemma malformed_item_blocks_rest_of_batch :
  let good1 := Demo.raw "email" "Great support team" "2026-01-30T10:15:00Z" in
  let bad := {| i_id := None; i_source := None;
                i_content := Some "Billing was fine";
                i_timestamp := Some "2026-01-30T11:00:00Z";
                i_metadata := None |} in
  let good2 := Demo.raw "app_store" "Love this app!" "2026-01-29T09:00:00Z" in
  exists w',
    fetch (POST_ingest (Some [good1; bad; good2])) Demo.empty_world =
      (Ok (ServerError (ConstraintNotNull "source")), w') /\
    map r_content (store w') = ["Great support team"] /\
    well_formed good2 /\
    ~ In (classifier_request (i_content good2)) (ai_log w') /\
    ~ In (i_content good2) (map (fun r => Some (r_content r)) (store w')).
Proof.
  intros good1 bad good2. eexists.
  split; [vm_compute; reflexivity|].
  split; [reflexivity|].
  split; [do 3 eexists; repeat split; reflexivity|].
  split.
  - cbn. intros [H|[H|[]]]; discriminate H.
  - cbn. intros [H|[]]; discriminate H.
Qed.

(** C9 as amended, on the same batch: the loop ends at the malformed
    item, and the calls made are those of the first and of the malformed
    item. *)
Lemma ingest_stops_at_first_malformed_item_witness :
  let good1 := Demo.raw "email" "Great support team" "2026-01-30T10:15:00Z" in
  let bad := {| i_id := None; i_source := None;
                i_content := Some "Billing was fine";
                i_timestamp := Some "2026-01-30T11:00:00Z";
                i_metadata := None |} in
  let good2 := Demo.raw "app_store" "Love this app!" "2026-01-29T09:00:00Z" in
  exists e w' kept rows,
    fetch (POST_ingest (Some ([good1] ++ bad :: [good2]))) Demo.empty_world =
      (Ok (ServerError e), w') /\
    (e = TypeError \/ exists column, e = ConstraintNotNull column) /\
    Forall2 classified_from [good1] kept /\
    Forall2 stored_as kept rows /\
    store w' = rows /\
    List.length rows = 1%nat /\
    ai_log w' =
      [ classifier_request (Some "Great support team");
        classifier_request (Some "Billing was fine") ].
Proof.
  intros good1 bad good2.
  destruct (ingest_stops_at_first_malformed_item
              Demo.empty_world [good1] [good2] bad)
    as (e & w' & done & stop & rest & kept & rows & _ & _ & Hrun & He & Hcl
        & _ & Hst & Hstore & Hlen & Hlog & Hend).
  - repeat constructor; do 3 eexists; repeat split; reflexivity.
  - intros (s & c & t & Hs & _). discriminate Hs.
  - unfold fresh_ids. cbn. repeat constructor; cbn; intuition discriminate.
  - destruct Hend as (-> & -> & _).
    + unfold sentiments_convert. vm_compute. repeat constructor.
    + exists e, w', kept, rows. repeat split; assumption.
Defined.

(** The sample table, as ingestion leaves it. *)
Example sample_world_store :
  map (fun r => (r_timestamp r, r_sentiment r, r_score r, r_themes r))
      (store Demo.sample_world) =
  [ ("2026-01-30T10:15:00Z", JStr "positive", 9%Q, [JStr "support"]);
    ("2026-01-31T08:00:00Z", JStr "negative", 2%Q, [JStr "login"; JStr "404"]);
    ("2026-01-29T09:00:00Z", JStr "neutral", 5%Q, []) ].
Proof. vm_compute. reflexivity. Qed.


(** Scores 0.1 and 4.6 give 2.3: the sum of the two doubles is below
    4.7. *)
Example averageScore_of_two_scores :
  round1 (or_zero (sql_AVG [fl (1 # 10); fl (46 # 10)])) = Finite (fl (23 # 10)).
Proof. vm_compute. reflexivity. Qed.







(** C6.  In the table below one of the two recent rows mentions the
    theme "constructor", the other the theme "support"; the dashboard's
    theme health has an entry for "support" and none for
    "constructor". *)
Theorem themeHealth_drops_inherited_label :
  exists d,
    getDashboardData Demo.constructor_world = (Ok d, Demo.constructor_world) /\
    mentions (most_recent 100 (store Demo.constructor_world)) =
      [("constructor", JStr "negative"); ("support", JStr "positive")] /\
    themeHealth d =
      [ {| th_theme := "support"; th_total := 1; th_positive := 1;
           th_negative := 0; th_score := 100 |} ] /\
    ~ In "constructor" (map th_theme (themeHealth d)).
Proof.
  destruct (getDashboardData_run Demo.constructor_world)
    as (d & Hrun & _ & _ & Hhealth).
  exists d. split; [exact Hrun|].
  split; [vm_compute; reflexivity|].
  assert (Hd : themeHealth d =
               [ {| th_theme := "support"; th_total := 1; th_positive := 1;
                    th_negative := 0; th_score := 100 |} ])
    by (rewrite Hhealth; vm_compute; reflexivity).
  split; [exact Hd|].
  rewrite Hd. cbn. intros [H|[]]. discriminate H.
Qed.

(** The scenario of the specification: ten rows tagged "pricing", six
    positive and four negative, give the score 20. *)
Example health_score_pricing :
  health_score {| ts_positive := 6; ts_negative := 4; ts_total := 10;
                  ts_trend := "stable" |} = 20%Z.
Proof. vm_compute. reflexivity. Qed.

(** In double arithmetic 23 of 40 is 57 percent, where the exact
    quotient 57.5 would be rounded to 58. *)
Example health_score_23_of_40 :
  health_score {| ts_positive := 23; ts_negative := 0; ts_total := 40;
                  ts_trend := "stable" |} = 57%Z.
Proof. vm_compute. reflexivity. Qed.

Example health_score_11_of_40_negative :
  health_score {| ts_positive := 0; ts_negative := 11; ts_total := 40;
                  ts_trend := "stable" |} = (-28)%Z.
Proof. vm_compute. reflexivity. Qed.



(** The scenario of the specification: a summary over 7 days of an empty
    table is the fixed message, and the AI log stays empty. *)
Example generateSummary_empty_store :
  generateSummary 7 Demo.empty_world =
  (Ok "No feedback received in the last 7 days.", Demo.empty_world).
Proof. vm_compute. reflexivity. Qed.

Example generateSummary_sample_lines :
  map row_line
      (filter (fun r => String.leb "2026-01-25T12:00:00.000Z" (r_timestamp r))
              (most_recent 100 (store Demo.sample_world))) =
  [ "[negative, score:2] (web): Page not found after login";
    "[positive, score:9] (email): Great support team";
    "[neutral, score:5] (app_store): Love this app!" ].
Proof. vm_compute. reflexivity. Qed.

(** The scenario of the specification: a failed classification of
    "Love this app!" yields neutral, 5 and no themes. *)
Example ingest_fallback_scenario :
  fst (ingestFeedback [Demo.raw "app_store" "Love this app!" "2026-01-29T09:00:00Z"]
                      Demo.empty_world) =
  Ok [ {| id := JStr "00000000-0000-4000-8000-000000000000";
          source := Some "app_store"; f_content := Some "Love this app!";
          timestamp := Some "2026-01-29T09:00:00Z";
          sentiment := JStr "neutral"; score := 5%Q; themes := [];
          metadata := None |} ].
Proof. vm_compute. reflexivity. Qed.

(** X1 on an answer that wraps the object in prose and braces. *)
Example match_braces_sample :
  match_braces "Sure {a} and {b} done" = Some "{a} and {b}".
Proof. reflexivity. Qed.

(** X3, after the sample batch was posted to a fresh database. *)
Lemma reachable_store_invariant_witness :
  let w := snd (fetch (POST_ingest (Some Demo.sample_batch)) Demo.empty_world) in
  NoDup (map r_id (store w)) /\
  Forall (fun r => exists s, r_sentiment r = JStr s) (store w).
Proof.
  apply (reachable_store_invariant
           (snd (fetch (POST_ingest (Some Demo.sample_batch)) Demo.empty_world))).
  apply reachable_fetch. apply (reachable_fresh Demo.noon).
Defined.

(** X9, on the fresh database. *)
Lemma getDashboardData_empty_table_witness :
  exists d,
    getDashboardData Demo.empty_world = (Ok d, Demo.empty_world) /\
    totalFeedback d = 0%nat /\
    sentimentCounts d = {| positive := 0; neutral := 0; negative := 0 |} /\
    averageScore d = Finite 0 /\
    topThemes d = [] /\ sentimentTrend d = [] /\ themeHealth d = [] /\
    sourceBreakdown d = [] /\ recentFeedback d = [].
Proof.
  apply (getDashboardData_empty_table Demo.empty_world). reflexivity.
Defined.

(** X10, on the sample table: the model answers, and its text is the
    result. *)
Lemma askAboutFeedback_one_call_witness :
  let w := Demo.sample_world in
  let req := ask_request "What do users like?" (most_recent 30 (store w)) in
  exists w',
    askAboutFeedback "What do users like?" w =
      (Ok "Executive summary: sentiment is mostly positive.", w') /\
    ai_log w' = ai_log w ++ [req] /\ store w' = store w.
Proof.
  intros w req.
  destruct (askAboutFeedback_one_call "What do users like?" w)
    as (result & w' & Hrun & Hlog & Hstore & _ & Htext & _).
  exists w'. fold req in Htext, Hlog.
  rewrite Hrun, (Htext "Executive summary: sentiment is mostly positive.").
  - auto.
  - reflexivity.
  - discriminate.
Defined.

(** X11: during an outage of the model [POST /ask] is answered with the
    server error, and a window of 200 million days makes [GET /summary]
    fail before any AI call. *)
Lemma fetch_always_answers_witness :
  fst (fetch (P := Outage.platform) (POST_ask "What do users like?")
             Demo.sample_world) = Ok (ServerError AIError) /\
  fetch (GET_summary 200000000) Demo.sample_world =
    (Ok (ServerError RangeError), Demo.sample_world).
Proof.
  split.
  - apply (proj1 (proj2 (fetch_always_answers (P := Outage.platform)
                           (POST_ask "What do users like?") Demo.sample_world))
             "What do users like?" eq_refl).
    reflexivity.
  - apply (proj2 (proj2 (fetch_always_answers (GET_summary 200000000)
                           Demo.sample_world))
             200000000%Z eq_refl).
    vm_compute. reflexivity.
Defined.

(** X12, on the sample batch. *)
Lemma fetch_ingest_processed_count_witness :
  exists w',
    fetch (POST_ingest (Some Demo.sample_batch)) Demo.empty_world =
      (Ok (IngestJson 3), w') /\
    List.length (store w') = 3%nat.
Proof.
  apply (fetch_ingest_processed_count Demo.empty_world Demo.sample_batch).
  - repeat constructor; do 3 eexists; repeat split; reflexivity.
  - unfold fresh_ids. cbn. repeat constructor; cbn; intuition discriminate.
  - unfold sentiments_convert. vm_compute. repeat constructor.
Defined.


(** What is read back of the item with the numeric sentiment: the text
    of the number, under the identifier drawn. *)
Example read_back_sentiment_text :
  exists out w' recent,
    ingestFeedback [Demo.raw "survey" "Seven out of ten" "2026-01-30T09:00:00Z"]
                   Demo.empty_world = (Ok out, w') /\
    getRecentFeedback 50 w' = (Ok recent, w') /\
    map sentiment out = [JNum 7] /\ map sentiment recent = [JStr "7.0"].
Proof.
  eexists. eexists. eexists. split; [vm_compute; reflexivity|].
  split; [vm_compute; reflexivity|]. split; reflexivity.
Qed.


(** X16 on a path that holds [/api] twice. *)
Example worker_route_sample :
  worker_route "/api/api/trends" = ForwardToAgent "/api/trends".
Proof. reflexivity. Qed.
